(** * svelte-adapter-bun: the static responder, the dev WebSocket shim and
      the dev upgrade bridge

    A shallow embedding of
      - [src/dev/websocket-shim.js]   (module [Shim]),
      - [src/dev/websocket-server.js] (module [Bridge]),
      - [src/files/handler.js], function [sirv] (module [Static]),
    and the properties the specification states about them.

    Conventions.  JavaScript numbers that the code only uses as
    non-negative integers (sizes, offsets, byte counts, ready states) are
    [nat], [N] or [Z]; a [Map] or [Headers] object is a [gmap]; a [Set] of
    connection objects is a [gset] of connection identifiers; mutation is
    explicit state passing. *)

From stdpp Require Import gmap strings list fin_maps fin_sets functions.
From Stdlib Require Import Ascii ZArith Lia DecimalString.


(* ===================================================================== *)
(** ** The WebSocket shim: [src/dev/websocket-shim.js]                    *)
(* ===================================================================== *)

Module Shim.

(** A [BunWebSocketShim] object and the Node [ws] socket it wraps are
    created together and never separated, so one identifier names both. *)
Definition handle := nat.

(** [string | ArrayBufferView | ArrayBuffer | SharedArrayBuffer] *)
Inductive payload :=
  | PText (s : string)
  | PBinary (b : list Byte.byte).

(** [typeof data === 'string' ? data.length : data.byteLength ?? 0] *)
Definition payload_size (data : payload) : nat :=
  match data with
  | PText s => String.length s
  | PBinary b => length b
  end.

(** [readyState] values of the underlying socket. *)
Definition CONNECTING : nat := 0.
Definition OPEN : nat := 1.
Definition CLOSING : nat := 2.
Definition CLOSED : nat := 3.

(** The part of a Node [ws] socket the shim touches: its [readyState] and
    the frames handed to [ws.send(data, { compress })], oldest first. *)
Record Ws := mkWs {
  readyState : nat;
  sent : list (payload * bool)
}.

(** The sockets of all shims and the module-level [topicRegistry]
    ([Map<string, Set<BunWebSocketShim>>]). *)
Record World := mkWorld {
  sockets : handle → Ws;
  topicRegistry : gmap string (gset handle)
}.

(** [this.#ws.send(data, { compress })] *)
Definition ws_send (w : World) (h : handle) (data : payload) (compress : bool) : World :=
  mkWorld
    (<[h := mkWs (readyState (sockets w h)) (sent (sockets w h) ++ [(data, compress)])]> (sockets w))
    (topicRegistry w).

(** [send(data, compress)], lines 67-71. *)
Definition send (w : World) (h : handle) (data : payload) (compress : option bool)
  : World * nat :=
  if bool_decide (readyState (sockets w h) ≠ 1) then (w, 0)
  else (ws_send w h data (default false compress), payload_size data).

(** [subscribe(topic)], lines 117-124. *)
Definition subscribe (w : World) (h : handle) (topic : string) : World :=
  let '(subs, reg) :=
    match topicRegistry w !! topic with
    | Some subs => (subs, topicRegistry w)
    | None => (∅, <[topic := ∅]> (topicRegistry w))
    end in
  mkWorld (sockets w) (<[topic := subs ∪ {[h]}]> reg).

(** [unsubscribe(topic)], lines 127-132. *)
Definition unsubscribe (w : World) (h : handle) (topic : string) : World :=
  match topicRegistry w !! topic with
  | None => w
  | Some subs =>
      let subs' := subs ∖ {[h]} in
      let reg := <[topic := subs']> (topicRegistry w) in
      mkWorld (sockets w)
        (if bool_decide (size subs' = 0) then delete topic reg else reg)
  end.

(** [isSubscribed(topic)], lines 138-140. *)
Definition isSubscribed (w : World) (h : handle) (topic : string) : bool :=
  match topicRegistry w !! topic with
  | Some subs => bool_decide (h ∈ subs)
  | None => false
  end.

(** One turn of the loop of [publish], lines 154-158. *)
Definition publish_step (h : handle) (data : payload) (compress : option bool)
    (acc : World * nat) (shim : handle) : World * nat :=
  let '(w, n) := acc in
  if bool_decide (shim = h) then (w, n)
  else if bool_decide (readyState (sockets w shim) ≠ 1) then (w, n)
  else let '(w', k) := send w shim data compress in (w', n + k).

(** [publish(topic, data, compress)], lines 149-160. *)
Definition publish (w : World) (h : handle) (topic : string) (data : payload)
    (compress : option bool) : World * nat :=
  match topicRegistry w !! topic with
  | None => (w, 0)
  | Some subs => foldl (publish_step h data compress) (w, 0) (elements subs)
  end.

(** The body of the loop of [#cleanup], lines 198-199: what becomes of
    one entry of the registry. *)
Definition cleanup_entry (h : handle) (subs : gset handle) : option (gset handle) :=
  let subs' := subs ∖ {[h]} in
  if bool_decide (size subs' = 0) then None else Some subs'.

(** [#cleanup()], lines 196-201. *)
Definition cleanup (w : World) (h : handle) : World :=
  mkWorld (sockets w) (omap (cleanup_entry h) (topicRegistry w)).

(** [close(code, reason)], lines 95-98.  [ws.close] of the [ws] library
    starts the closing handshake: the socket becomes CLOSING. *)
Definition close (w : World) (h : handle) : World :=
  if bool_decide (2 ≤ readyState (sockets w h)) then w
  else mkWorld (<[h := mkWs CLOSING (sent (sockets w h))]> (sockets w)) (topicRegistry w).

(** The transport reports the end of the connection: the [ws] library sets
    [readyState] to CLOSED and emits ['close'] in the same turn, which runs
    the listener the constructor registered (line 29),
    [() => this.#cleanup()]. *)
Definition ws_closed (w : World) (h : handle) : World :=
  cleanup (mkWorld (<[h := mkWs CLOSED (sent (sockets w h))]> (sockets w)) (topicRegistry w)) h.

(** The handshake of a connecting socket completes. *)
Definition ws_opened (w : World) (h : handle) : World :=
  if bool_decide (readyState (sockets w h) = CONNECTING)
  then mkWorld (<[h := mkWs OPEN (sent (sockets w h))]> (sockets w)) (topicRegistry w)
  else w.

(** [_resetTopicRegistry()], and the registry of a fresh process. *)
Definition _resetTopicRegistry (w : World) : World := mkWorld (sockets w) ∅.

(** What user code and the transport can do to the shims. *)
Inductive op :=
  | OpSubscribe (h : handle) (topic : string)
  | OpUnsubscribe (h : handle) (topic : string)
  | OpPublish (h : handle) (topic : string) (data : payload) (compress : option bool)
  | OpSend (h : handle) (data : payload) (compress : option bool)
  | OpClose (h : handle)
  | OpWsOpened (h : handle)
  | OpWsClosed (h : handle).

Definition step (w : World) (o : op) : World :=
  match o with
  | OpSubscribe h t => subscribe w h t
  | OpUnsubscribe h t => unsubscribe w h t
  | OpPublish h t d c => (publish w h t d c).1
  | OpSend h d c => (send w h d c).1
  | OpClose h => close w h
  | OpWsOpened h => ws_opened w h
  | OpWsClosed h => ws_closed w h
  end.

Definition run (w : World) (ops : list op) : World := foldl step w ops.

(** Is [o] a call of [subscribe] on [h]? *)
Definition subscribes (h : handle) (o : op) : bool :=
  match o with
  | OpSubscribe h' _ => bool_decide (h' = h)
  | _ => false
  end.

(** The subscribers of [topic] other than [h] that are open: the
    connections a publish from [h] is meant for. *)
Definition recipients (w : World) (h : handle) (topic : string) : list handle :=
  filter (λ s, s ≠ h ∧ readyState (sockets w s) = 1)
         (elements (default ∅ (topicRegistry w !! topic))).

(** No entry of the registry holds an empty set. *)
Definition no_empty_topic (w : World) : Prop :=
  ∀ topic subs, topicRegistry w !! topic = Some subs → subs ≠ ∅.

(** The getter [subscriptions], lines 52-59.  JavaScript walks the
    registry in insertion order; the model walks it in the order of the
    [gmap], so only the members of the result are meant, not their order. *)
Definition subscriptions (w : World) (h : handle) : list string :=
  (filter (λ entry : string * gset handle, h ∈ entry.2)
          (map_to_list (topicRegistry w))).*1.

(** The getter [binaryType], lines 37-43: [t] is [this.#ws.binaryType]. *)
Definition binaryType_get (t : string) : string :=
  if bool_decide (t = "nodebuffer") || bool_decide (t = "fragments") then "uint8array" else t.

(** The setter [binaryType], lines 45-49: what is assigned to
    [this.#ws.binaryType]. *)
Definition binaryType_set (value : string) : string :=
  if bool_decide (value = "uint8array") then "nodebuffer" else value.

(** [h] is in no subscriber set. *)
Definition in_no_topic (w : World) (h : handle) : Prop :=
  ∀ t subs, topicRegistry w !! t = Some subs → h ∉ subs.

(** *** Sample worlds *)

(** Every socket open, nothing sent, no topic. *)
Definition all_open : World := mkWorld (λ _, mkWs OPEN []) ∅.

(** Three connections in one room, as in the test
    'sends to all subscribers except self'. *)
Definition room3 : World :=
  run all_open [OpSubscribe 1 "room"; OpSubscribe 2 "room"; OpSubscribe 3 "room"].

End Shim.

(* ===================================================================== *)
(** ** The dev upgrade bridge: [src/dev/websocket-server.js]              *)
(* ===================================================================== *)

Module Bridge.

(** The values a user callback can hand back, as far as the bridge tells
    them apart ([result instanceof Response]). *)
Inductive JsValue :=
  | VUndefined
  | VBool (b : bool)
  | VString (s : string)
  | VPromise
  | VResponse (status : nat) (body : string).

Definition instanceof_Response (v : JsValue) : bool :=
  match v with VResponse _ _ => true | _ => false end.

(** Per-connection data: [{}] or what the user passed as [opts.data]. *)
Inductive Data :=
  | EmptyObject
  | UserData (d : string).

(** The second argument of [server.upgrade(req, opts)]: [opts] may be
    missing, and so may [opts.data]. *)
Definition UpgradeOpts := option (option string).

(** [opts?.data ?? {}] *)
Definition data_of (opts : UpgradeOpts) : Data :=
  match opts with
  | Some (Some d) => UserData d
  | _ => EmptyObject
  end.

(** One synchronous run of the user's [upgrade(request, server)]: it
    returns, throws, or calls [server.upgrade] and goes on with the
    boolean that call returns. *)
Inductive UpgradeRun :=
  | Returns (v : JsValue)
  | Throws (e : string)
  | CallsUpgrade (opts : UpgradeOpts) (k : bool → UpgradeRun).

(** The arguments of the calls of [server.upgrade] a run makes, in
    order. *)
Fixpoint facade_calls (p : UpgradeRun) : list UpgradeOpts :=
  match p with
  | Returns _ | Throws _ => []
  | CallsUpgrade opts k => opts :: facade_calls (k true)
  end.

(** The two variables the fake server closes over, lines 60-61. *)
Record Facade := mkFacade {
  upgradeData : Data;
  shouldUpgrade : bool
}.

(** Running the callback against [fakeServer], lines 63-71: each call of
    [fakeServer.upgrade] stores the data, sets the flag and returns
    [true]. *)
Fixpoint run_callback (p : UpgradeRun) (f : Facade) : (JsValue + string) * Facade :=
  match p with
  | Returns v => (inl v, f)
  | Throws e => (inr e, f)
  | CallsUpgrade opts k => run_callback (k true) (mkFacade (data_of opts) true)
  end.

(** Whether a run ever calls [server.upgrade]. *)
Definition calls_facade (p : UpgradeRun) : bool :=
  match p with
  | Returns _ | Throws _ => false
  | CallsUpgrade _ _ => true
  end.

(** The [Request] the bridge builds for the callback, lines 47-57. *)
Record RequestView := mkView {
  href : string;
  method : string;
  view_headers : gmap string string
}.

(** The user's handler module, as far as the upgrade path reads it. *)
Record HandlerModule := mkModule {
  upgrade : option (RequestView → UpgradeRun);
  has_open : bool
}.

(** The raw upgrade request, its socket and what happens around it.
    [view] is [None] when building the [Request] throws (an invalid URL
    or header); [handshake_ok] tells whether the [ws] library accepts the
    request in [wss.handleUpgrade] or aborts the handshake itself;
    [imports_meanwhile] counts the imports that other events (upgrades,
    messages, closes) start while [handleUpgrade] awaits the user
    module: each of them increments [importCounter]. *)
Record IncomingMessage := mkIncoming {
  sec_websocket_protocol : option string;
  view : option RequestView;
  remoteAddress : option string;
  handshake_ok : bool;
  imports_meanwhile : nat
}.

(** [v || d] for an optional string [v]: [undefined] and the empty
    string are falsy. *)
Definition or_else (v : option string) (d : string) : string :=
  match v with
  | Some s => if bool_decide (s = EmptyString) then d else s
  | None => d
  end.

(** What the bridge does to the outside world, in order. *)
Inductive event :=
  | EvLogError (tag : string)
  | EvSocketDestroy
  | EvHandshakeAborted
  | EvHandshake
  | EvShim (data : Data) (remote : string)
  | EvOpen.

(** [importFresh] numbers its imports with [importCounter]; [modules n]
    is what the [n]-th import yields, [None] when it is rejected. *)
Definition Modules := nat → option HandlerModule.

(** The opening part of [setupHandlers], lines 110-112. *)
Definition setupHandlers (modules : Modules) (importCounter : nat) : nat * list event :=
  let importCounter := S importCounter in
  match modules importCounter with
  | None => (importCounter, [EvLogError "[ws-dev] open error:"])
  | Some handler => (importCounter, if has_open handler then [EvOpen] else [])
  end.

(** [wss.handleUpgrade(req, socket, head, (ws) => { ... })], lines 80-87
    and 90-94; the library runs the callback at once, so [importCounter]
    is the same at the call and in [setupHandlers]. *)
Definition accept (modules : Modules) (importCounter : nat) (req : IncomingMessage)
    (data : Data) : nat * list event :=
  if handshake_ok req then
    let '(c, evs) := setupHandlers modules importCounter in
    (c, EvHandshake :: EvShim data (or_else (remoteAddress req) "127.0.0.1") :: evs)
  else (importCounter, [EvHandshakeAborted]).

(** The [catch] clause, lines 96-99. *)
Definition upgrade_error : list event :=
  [EvLogError "[ws-dev] upgrade error:"; EvSocketDestroy].

(** [handleUpgrade(req, socket, head)], lines 37-100.  [importFresh]
    increments the counter when it is called; what follows the [await]
    runs when the import has settled, with the counter as the other
    events have left it.  The result is the counter and the trace when
    the function is done. *)
Definition handleUpgrade (modules : Modules) (importCounter : nat)
    (req : IncomingMessage) : nat * list event :=
  if bool_decide (sec_websocket_protocol req = Some "vite-hmr") then (importCounter, [])
  else
    let imported := S importCounter in
    let importCounter := imported + imports_meanwhile req in
    match modules imported with
    | None => (importCounter, upgrade_error)
    | Some handler =>
        match upgrade handler with
        | Some callback =>
            match view req with
            | None => (importCounter, upgrade_error)
            | Some request =>
                match run_callback (callback request) (mkFacade EmptyObject false) with
                | (inr _, _) => (importCounter, upgrade_error)
                | (inl result, f) =>
                    if negb (shouldUpgrade f) then
                      (importCounter,
                       if instanceof_Response result then [EvSocketDestroy] else [])
                    else accept modules importCounter req (upgradeData f)
                end
            end
        | None => accept modules importCounter req EmptyObject
        end
    end.


(** *** Sample inputs *)

(** A handler module whose [upgrade] returns [v] at once, without calling
    [server.upgrade]; it also exports [open]. *)
Definition refusing (v : JsValue) : HandlerModule :=
  mkModule (Some (λ _, Returns v)) true.

(** An [upgrade] that calls [server.upgrade] twice, the second time
    with the data [token], and then returns a [Response] all the same. *)
Definition upgrading_twice : RequestView → UpgradeRun :=
  λ _, CallsUpgrade (Some (Some "first"))
         (λ _, CallsUpgrade (Some (Some "token"))
                 (λ _, Returns (VResponse 500 "Upgrade failed"))).

(** An ordinary upgrade request, with no other event in between. *)
Definition plain_request : IncomingMessage :=
  mkIncoming None (Some (mkView "http://localhost/" "GET" ∅)) (Some "10.0.0.7") true 0.

(** An upgrade request during whose import two messages arrive on other
    connections; the socket reports an empty remote address. *)
Definition busy_request : IncomingMessage :=
  mkIncoming None (Some (mkView "http://localhost/" "GET" ∅)) (Some EmptyString) true 2.

(** A user module that exports [open] and no [upgrade], available under
    the import number 1 only. *)
Definition first_import_only : Modules :=
  λ n, if bool_decide (n = 1) then Some (mkModule None true) else None.

End Bridge.

(* ===================================================================== *)
(** ** The static responder: [sirv] in [src/files/handler.js]             *)
(* ===================================================================== *)

Module Static.

(** *** Strings and numbers *)

(** The double-quote character. *)
Definition dquote : string := String "034"%char EmptyString.

(** [\d] *)
Definition is_digit (c : ascii) : bool :=
  (48 <=? nat_of_ascii c)%nat && (nat_of_ascii c <=? 57)%nat.

Fixpoint all_digits (s : string) : bool :=
  match s with
  | EmptyString => true
  | String c s' => is_digit c && all_digits s'
  end.

(** [parseInt(s, 10)] on a string of decimal digits.  Numbers are exact
    integers here; a JavaScript number is exact up to 2^53. *)
Definition digit_value (c : ascii) : Z := Z.of_nat (nat_of_ascii c) - 48.

Fixpoint parse_digits (acc : Z) (s : string) : Z :=
  match s with
  | EmptyString => acc
  | String c s' => parse_digits (10 * acc + digit_value c) s'
  end.

Definition parseInt (s : string) : Z := parse_digits 0 s.

(** [String(n)] and [`${n}`] for an integer [n]. *)
Definition String_ (n : Z) : string := NilZero.string_of_int (Z.to_int n).

(** [s.startsWith(p)] is [String.prefix p s]; [s.slice(n)]: *)
Fixpoint slice_from (n : nat) (s : string) : string :=
  match n, s with
  | O, _ => s
  | S n', String _ s' => slice_from n' s'
  | S _, EmptyString => EmptyString
  end.

(** [s.endsWith(p)] *)
Definition endsWith (s p : string) : bool :=
  (String.length p <=? String.length s)%nat
  && bool_decide (slice_from (String.length s - String.length p) s = p).

(** [s.includes(p)] *)
Fixpoint includes (s p : string) : bool :=
  String.prefix p s ||
  match s with
  | EmptyString => false
  | String _ s' => includes s' p
  end.

(** A string in a condition: [null] and the empty string are falsy. *)
Definition truthy (s : option string) : bool :=
  match s with
  | Some s => negb (bool_decide (s = EmptyString))
  | None => false
  end.

(** *** The pattern of a range: [bytes=], one or more digits (group 1),
    [-], any number of digits (group 2) *)

(** The longest run of digits at the head of [s], and what follows. *)
Fixpoint take_digits (s : string) : string * string :=
  match s with
  | String c s' =>
      if is_digit c then let '(d, r) := take_digits s' in (String c d, r)
      else (EmptyString, s)
  | EmptyString => (EmptyString, EmptyString)
  end.

(** [s] minus the literal [p] at its head. *)
Fixpoint strip_literal (p s : string) : option string :=
  match p, s with
  | EmptyString, _ => Some s
  | String a p', String b s' => if bool_decide (a = b) then strip_literal p' s' else None
  | String _ _, EmptyString => None
  end.

(** The pattern tried at the head of [s].  Both groups are greedy, and the
    character after a maximal run of digits is not a digit, so no shorter
    run can be followed by [-]: trying the maximal runs is all there is. *)
Definition match_here (s : string) : option (string * string) :=
  match strip_literal "bytes=" s with
  | None => None
  | Some r =>
      let '(g1, r1) := take_digits r in
      if bool_decide (g1 = EmptyString) then None
      else match r1 with
           | String "-"%char r2 => Some (g1, (take_digits r2).1)
           | _ => None
           end
  end.

(** [range_header.match(pattern)], line 187: the pattern is not
    anchored, so the first position where it matches wins.  The result is
    the two groups. *)
Fixpoint range_match (s : string) : option (string * string) :=
  match match_here s with
  | Some m => Some m
  | None =>
      match s with
      | EmptyString => None
      | String _ s' => range_match s'
      end
  end.

(** *** The data *)

Abbreviation Headers := (gmap string string).

(** An entry of [files], line 94. *)
Record FileEntry := mkEntry {
  abs : string;
  size : Z;
  mtime : Z;
  etag : option string;
  type : string;
  has_br : bool;
  has_gz : bool
}.

(** The body handed to [new Response]: [null], [Bun.file(path)] or
    [Bun.file(path).slice(start, stop)]. *)
Inductive Body :=
  | BodyNull
  | BodyFile (path : string)
  | BodySlice (path : string) (start stop : Z).

Record Response := mkResponse {
  status : nat;
  headers : Headers;
  body : Body
}.

(** A request: the path of its URL and its headers, under lower-case
    names as [request.headers.get] looks them up. *)
Record Request := mkRequest {
  url_pathname : string;
  req_headers : Headers
}.

(** [opts] of [sirv]. *)
Record Opts := mkOpts {
  opt_etag : option bool;
  setHeaders : option (Headers → string → Headers)
}.

(** What [totalist] reports for one file (lines 72-84), with the outcome
    of the two probes [statSync(abs + '.br')] and [statSync(abs + '.gz')]. *)
Record Scanned := mkScanned {
  rel : string;
  sc_abs : string;
  st_size : Z;
  st_mtimeMs : Z;
  br_exists : bool;
  gz_exists : bool
}.

(** [Blob.slice(start, stop)] on the bytes of a file: negative offsets
    count from the end, both are clamped to the size, and an empty span
    yields nothing. *)
Definition blob_slice (bytes : list Byte.byte) (start stop : Z) : list Byte.byte :=
  let len := Z.of_nat (length bytes) in
  let clamp (x : Z) := if (x <? 0)%Z then Z.max (len + x) 0 else Z.min x len in
  let s := clamp start in
  let e := clamp stop in
  take (Z.to_nat (Z.max (e - s) 0)) (drop (Z.to_nat s) bytes).

(** The bytes a body stands for, given the content of the files. *)
Definition body_bytes (read : string → list Byte.byte) (b : Body) : list Byte.byte :=
  match b with
  | BodyNull => []
  | BodyFile p => read p
  | BodySlice p start stop => blob_slice (read p) start stop
  end.

(** Line 106: the weak validator, [W/], then size, [-] and mtime between
    double quotes. *)
Definition weak_validator (size mtime : Z) : string :=
  "W/" +:+ dquote +:+ String_ size +:+ "-" +:+ String_ mtime +:+ dquote.

Section Sirv.

(** [base_path] comes from the manifest; [get_mime] (lines 61-64) and
    [new Date(ms).toUTCString()] are taken as given. *)
Variable base_path : string.
Variable get_mime : string → string.
Variable toUTCString : Z → string.
Variable opts : Opts.

(** [opts.etag !== false] *)
Definition use_etag : bool := negb (bool_decide (opt_etag opts = Some false)).

(** The callback given to [totalist], lines 100-121. *)
Definition index_file (files : gmap string FileEntry) (f : Scanned) : gmap string FileEntry :=
  if endsWith (rel f) ".br" || endsWith (rel f) ".gz" then files
  else
    let etag :=
      if use_etag then Some (weak_validator (st_size f) (st_mtimeMs f)) else None in
    <["/" +:+ rel f :=
        mkEntry (sc_abs f) (st_size f) (st_mtimeMs f) etag (get_mime (rel f))
                (br_exists f) (gz_exists f)]> files.

(** The index [sirv] builds over the files of the directory, in the order
    [totalist] visits them. *)
Definition build_index (listing : list Scanned) : gmap string FileEntry :=
  foldl index_file ∅ listing.

(** Lines 131-134. *)
Definition strip_base (pathname : string) : string :=
  if negb (bool_decide (base_path = EmptyString)) && String.prefix base_path pathname
  then let p := slice_from (String.length base_path) pathname in
       if bool_decide (p = EmptyString) then "/" else p
  else pathname.

(** Lines 139-152: the base headers. *)
Definition base_headers (file : FileEntry) (pathname : string) : Headers :=
  let headers : Headers :=
    <["last-modified" := toUTCString (mtime file)]>
      (<["content-length" := String_ (size file)]>
        (<["content-type" := type file]> ∅)) in
  let headers :=
    match etag file with
    | Some e => if truthy (Some e) then <["etag" := e]> headers else headers
    | None => headers
    end in
  match setHeaders opts with
  | Some f => f headers pathname
  | None => headers
  end.

(** Lines 155-160: does the conditional check answer 304? *)
Definition not_modified (file : FileEntry) (request : Request) : bool :=
  truthy (etag file) && bool_decide (req_headers request !! "if-none-match" = etag file).

(** Lines 163-182: the negotiation over precompressed siblings. *)
Definition negotiate (file : FileEntry) (request : Request) (headers : Headers)
  : string * option string * Headers :=
  let accept_encoding := default EmptyString (req_headers request !! "accept-encoding") in
  if has_br file && includes accept_encoding "br" then
    (abs file +:+ ".br", Some "br",
     delete "content-length"
       (<["vary" := "Accept-Encoding"]> (<["content-encoding" := "br"]> headers)))
  else if has_gz file && includes accept_encoding "gzip" then
    (abs file +:+ ".gz", Some "gzip",
     delete "content-length"
       (<["vary" := "Accept-Encoding"]> (<["content-encoding" := "gzip"]> headers)))
  else if has_br file || has_gz file then
    (abs file, None, <["vary" := "Accept-Encoding"]> headers)
  else (abs file, None, headers).

(** Line 190. *)
Definition range_end (file : FileEntry) (group2 : string) : Z :=
  if negb (bool_decide (group2 = EmptyString)) then parseInt group2 else (size file - 1)%Z.

(** Lines 185-212: range handling and the default response. *)
Definition respond (file : FileEntry) (request : Request) (serve_path : string)
    (content_encoding : option string) (headers : Headers) : Response :=
  let range_header := req_headers request !! "range" in
  let whole := mkResponse 200 headers (BodyFile serve_path) in
  if truthy range_header && negb (truthy content_encoding) then
    match range_match (default EmptyString range_header) with
    | Some (g1, g2) =>
        let start := parseInt g1 in
        let end_ := range_end file g2 in
        if (size file <=? start)%Z || (size file <=? end_)%Z || (end_ <? start)%Z then
          mkResponse 416 {["content-range" := "bytes */" +:+ String_ (size file)]} BodyNull
        else
          mkResponse 206
            (<["content-length" := String_ (end_ - start + 1)]>
              (<["content-range" :=
                   "bytes " +:+ String_ start +:+ "-" +:+ String_ end_ +:+ "/" +:+ String_ (size file)]>
                 headers))
            (BodySlice serve_path start (end_ + 1))
    | None => whole
    end
  else whole.

(** [handle(request)], lines 127-213. *)
Definition handle (files : gmap string FileEntry) (request : Request) : option Response :=
  let pathname := strip_base (url_pathname request) in
  match files !! pathname with
  | None => None
  | Some file =>
      let headers := base_headers file pathname in
      if not_modified file request then Some (mkResponse 304 headers BodyNull)
      else
        let '(serve_path, content_encoding, headers) := negotiate file request headers in
        Some (respond file request serve_path content_encoding headers)
  end.

(** [sirv(dir, opts)], lines 91-214: [listing] is [None] when the
    directory does not exist. *)
Definition sirv (listing : option (list Scanned)) : Request → option Response :=
  match listing with
  | None => λ _, None
  | Some l => handle (build_index l)
  end.

End Sirv.

(** Line 102: is [rel] the name of a precompressed variant? *)
Definition is_sibling (rel : string) : bool :=
  endsWith rel ".br" || endsWith rel ".gz".

(** Line 120: the entry stored for a scanned file. *)
Definition entry_of (get_mime : string → string) (opts : Opts) (f : Scanned) : FileEntry :=
  mkEntry (sc_abs f) (st_size f) (st_mtimeMs f)
          (if use_etag opts then Some (weak_validator (st_size f) (st_mtimeMs f)) else None)
          (get_mime (rel f)) (br_exists f) (gz_exists f).

(** A [setHeaders] callback that leaves the header [name] as it finds
    it. *)
Definition keeps (callback : option (Headers → string → Headers)) (name : string) : Prop :=
  ∀ f, callback = Some f → ∀ headers pathname, f headers pathname !! name = headers !! name.

(** The [setHeaders] callback [createHandler] gives to the server of the
    client directory, lines 307-311, and the options of that server,
    lines 305-312. *)
Definition immutable_headers (headers : Headers) (pathname : string) : Headers :=
  if String.prefix "/_app/immutable/" pathname
  then <["cache-control" := "public,max-age=31536000,immutable"]> headers
  else headers.

Definition client_opts : Opts := mkOpts (Some true) (Some immutable_headers).

(** The single-range form in the words of the specification: the whole
    header is [bytes=], a start of one or more digits, [-], and an end of
    digits that may be missing, with nothing before or after.  The code
    does not use this test; it is here to be compared with [range_match]. *)
Definition single_range_form (s : string) : bool :=
  match strip_literal "bytes=" s with
  | None => false
  | Some r =>
      let '(g1, r1) := take_digits r in
      negb (bool_decide (g1 = EmptyString)) &&
      match r1 with
      | String "-"%char r2 => bool_decide ((take_digits r2).2 = EmptyString)
      | _ => false
      end
  end.

(** *** Sample inputs *)

(** [data.txt] holds the 13 bytes of [Hello, World!] and has no
    precompressed sibling; [app.js] has both. *)
Definition sample_listing : list Scanned :=
  [ mkScanned "data.txt" "/srv/data.txt" 13 1700000000000 false false;
    mkScanned "app.js" "/srv/app.js" 13 1700000000000 true true ].

Definition sample_opts : Opts := mkOpts None None.

Definition sample_index : gmap string FileEntry :=
  build_index (λ _, "text/plain") sample_opts sample_listing.

Definition sample_handle : Request → option Response :=
  handle EmptyString (λ _, "Tue, 14 Nov 2023 22:13:20 GMT") sample_opts sample_index.

(** The validator of both sample files. *)
Definition sample_etag : string := "W/" +:+ dquote +:+ "13-1700000000000" +:+ dquote.

(** The entries of the two sample files, the date every sample response
    carries, and a disk on which every file holds 13 bytes. *)
Definition data_txt_entry : FileEntry :=
  mkEntry "/srv/data.txt" 13 1700000000000 (Some sample_etag) "text/plain" false false.

Definition app_js_entry : FileEntry :=
  mkEntry "/srv/app.js" 13 1700000000000 (Some sample_etag) "text/plain" true true.

Definition sample_date : Z → string := λ _, "Tue, 14 Nov 2023 22:13:20 GMT".

Definition sample_disk : string → list Byte.byte := λ _, replicate 13 Byte.x2a.

End Static.

(* ===================================================================== *)
(** ** Around the responder: origin, redirects and client address in
       [src/files/handler.js]                                             *)
(* ===================================================================== *)

Module Server.
Import Static.

(** *** [get_origin], lines 226-247 *)

Inductive origin_error :=
  | UriMalformed
  | InvalidProtocol
  | NoHost
  | InvalidPort (port : string).

Section Origin.

(** [protocol_header], [host_header] and [port_header] are the build
    options in lower case, [None] when not set (lines 216-218).
    [decodeURIComponent] is [None] where the built-in throws, and
    [is_NaN port] stands for [isNaN(+port)]; both are taken as given. *)
Variable protocol_header host_header port_header : option string.
Variable decodeURIComponent : string → option string.
Variable is_NaN : string → bool.

(** [name && headers.get(name)], as far as its truth value and its
    string matter: the header when [name] is set and the header is a
    non-empty string. *)
Definition and_get (name : option string) (headers : Headers) : option string :=
  if truthy name then
    (if truthy (headers !! default EmptyString name)
     then headers !! default EmptyString name else None)
  else None.

Definition get_origin (headers : Headers) : origin_error + string :=
  match decodeURIComponent (default "https" (and_get protocol_header headers)) with
  | None => inl UriMalformed
  | Some protocol =>
      if includes protocol ":" then inl InvalidProtocol
      else
        let host :=
          match and_get host_header headers with
          | Some h => Some h
          | None => headers !! "host"
          end in
        if negb (truthy host) then inl NoHost
        else
          let port := and_get port_header headers in
          if truthy port && is_NaN (default EmptyString port)
          then inl (InvalidPort (default EmptyString port))
          else if truthy port
               then inr (protocol +:+ "://" +:+ default EmptyString host +:+ ":"
                         +:+ default EmptyString port)
               else inr (protocol +:+ "://" +:+ default EmptyString host)
  end.

End Origin.

(** The text of [s] before its first colon: the scheme, when [s] is
    read as a URL. *)
Fixpoint before_colon (s : string) : string :=
  match s with
  | EmptyString => EmptyString
  | String c s' => if bool_decide (c = ":"%char) then EmptyString else String c (before_colon s')
  end.

(** *** The routing of [httpserver] before SSR, lines 347-375 *)

(** [s.slice(0, -1)] *)
Fixpoint drop_last (s : string) : string :=
  match s with
  | EmptyString => EmptyString
  | String c EmptyString => EmptyString
  | String c s' => String c (drop_last s')
  end.

(** Lines 364-366. *)
Definition toggle_slash (path : string) : string :=
  if endsWith path "/" then drop_last path else path +:+ "/".

Inductive routed :=
  | Served (r : Response)
  | Redirect308 (location : string)
  | ToSSR.

Section Routing.

(** [serve_client] and [serve_prerendered] are the two responders made
    by [sirv] (lines 305-314); [prerendered] is the set of prerendered
    paths of the manifest. *)
Variable base_path : string.
Variable serve_client serve_prerendered : Request → option Response.
Variable prerendered : gset string.

(** What [httpserver] does with a request that is not a WebSocket
    upgrade, up to the point where it turns to SSR; [search] is
    [url.search]. *)
Definition route (request : Request) (search : string) : routed :=
  match serve_client request with
  | Some r => Served r
  | None =>
      let prerendered_path := strip_base base_path (url_pathname request) in
      match (if bool_decide (prerendered_path ∈ prerendered)
             then serve_prerendered request else None) with
      | Some r => Served r
      | None =>
          let toggled := toggle_slash prerendered_path in
          if bool_decide (toggled ∈ prerendered) then
            let location :=
              if truthy (Some base_path) then base_path +:+ toggled else toggled in
            Redirect308 (if truthy (Some search) then location +:+ search else location)
          else ToSSR
      end
  end.

End Routing.

(** *** [getClientAddress], lines 402-419 *)

(** [value.split(',')] *)
Fixpoint split_comma (s : string) : list string :=
  match s with
  | EmptyString => [EmptyString]
  | String c s' =>
      if bool_decide (c = ","%char) then EmptyString :: split_comma s'
      else match split_comma s' with
           | first :: others => String c first :: others
           | [] => [String c EmptyString]
           end
  end.

(** White space for [trim], among the characters a string here can
    hold: tab, line feed, vertical tab, form feed, carriage return, space
    and the no-break space. *)
Definition is_space (c : ascii) : bool :=
  bool_decide (nat_of_ascii c ∈ [9; 10; 11; 12; 13; 32; 160]).

Fixpoint skip_spaces (l : list ascii) : list ascii :=
  match l with
  | c :: l' => if is_space c then skip_spaces l' else l
  | [] => []
  end.

(** [s.trim()] *)
Definition trim (s : string) : string :=
  String.string_of_list_ascii
    (reverse (skip_spaces (reverse (skip_spaces (String.list_ascii_of_string s))))).

Section ClientAddress.

(** [address_header] is [env('ADDRESS_HEADER')] in lower case, [xff_depth]
    is [parseInt(env('XFF_DEPTH', '1'))] with [None] for [NaN]
    (lines 288-289), and [requestIP] is what [bun_server.requestIP]
    reports as [ip?.address]. *)
Variable address_header : option string.
Variable xff_depth : option Z.
Variable requestIP : option string.

Definition getClientAddress (headers : Headers) : string :=
  match and_get address_header headers with
  | Some value =>
      if match xff_depth with Some d => (0 <? d)%Z | None => false end
         && bool_decide (address_header = Some "x-forwarded-for")
      then
        let addresses := trim <$> split_comma value in
        let picked :=
          addresses !! Z.to_nat (Z.max 0 (Z.of_nat (length addresses) - default 0%Z xff_depth)) in
        if truthy picked then default EmptyString picked else value
      else value
  | None => if truthy requestIP then default EmptyString requestIP else "127.0.0.1"
  end.

End ClientAddress.

(** *** [parse_body_size_limit], lines 258-283 *)

(** [toUpperCase] on the characters a string here can hold that matter
    to the pattern: the letters [a] to [z] become [A] to [Z].  No other
    character turns into a digit, a dot, a white space or one of [K],
    [M], [G], [B]. *)
Definition to_upper (c : ascii) : ascii :=
  if (97 <=? nat_of_ascii c)%nat && (nat_of_ascii c <=? 122)%nat
  then ascii_of_nat (nat_of_ascii c - 32) else c.

Fixpoint toUpperCase (s : string) : string :=
  match s with
  | EmptyString => EmptyString
  | String c s' => String (to_upper c) (toUpperCase s')
  end.

(** The white space at the head of [s], skipped. *)
Fixpoint skip_white (s : string) : string :=
  match s with
  | String c s' => if is_space c then skip_white s' else s
  | EmptyString => EmptyString
  end.

(** The end of the pattern: an optional unit [K], [M], [G], [KB], [MB]
    or [GB], an optional [B], and nothing more.  The result is the
    number of times the [switch] multiplies by 1024. *)
Definition unit_suffix (s : string) : option nat :=
  if bool_decide (s ∈ [EmptyString; "B"]) then Some 0
  else if bool_decide (s ∈ ["K"; "KB"; "KBB"]) then Some 1
  else if bool_decide (s ∈ ["M"; "MB"; "MBB"]) then Some 2
  else if bool_decide (s ∈ ["G"; "GB"; "GBB"]) then Some 3
  else None.

(** The limit: [Infinity], or [parseFloat(mantissa)] multiplied [times]
    times by 1024. *)
Inductive body_limit :=
  | Infinity
  | Bytes (mantissa : string) (times : nat).

(** [parse_body_size_limit(input)] for the input it gets, a string or
    [undefined] from [env('BODY_SIZE_LIMIT')]; [None] is the thrown
    error.  The pattern is anchored at both ends: digits, an optional
    fraction of a dot and digits, white space, and the suffix. *)
Definition parse_body_size_limit (input : option string) : option body_limit :=
  match input with
  | None => Some Infinity
  | Some input =>
      let '(whole, r1) := take_digits (toUpperCase input) in
      if bool_decide (whole = EmptyString) then None
      else
        let '(mantissa, r2) :=
          match strip_literal "." r1 with
          | Some r =>
              let '(fraction, r') := take_digits r in
              if bool_decide (fraction = EmptyString) then (whole, r1)
              else (whole +:+ "." +:+ fraction, r')
          | None => (whole, r1)
          end in
        match unit_suffix (skip_white r2) with
        | Some times => Some (Bytes mantissa times)
        | None => None
        end
  end.

(** A string of white space only. *)
Fixpoint all_white (s : string) : bool :=
  match s with
  | EmptyString => true
  | String c s' => is_space c && all_white s'
  end.

(** *** Sample inputs *)

(** A proxy that reports the protocol, which an attacker sets to a whole
    URL; nothing is percent-encoded, so decoding changes nothing. *)
Definition forged_headers : Headers :=
  <["x-forwarded-proto" := "http://evil.example/"]> {["host" := "shop.example"]}.

Definition honest_headers : Headers :=
  <["x-forwarded-proto" := "http"]> {["host" := "shop.example"]}.

End Server.

(* ===================================================================== *)
(** * Properties of the shim                                              *)
(* ===================================================================== *)

Module ShimFacts.
Import Shim.

(** *** What the operations do to the registry and to ready states *)

Lemma send_registry w h d c : topicRegistry (send w h d c).1 = topicRegistry w.
Proof. unfold send. by case_bool_decide. Qed.

Lemma send_readyState w h d c s :
  readyState (sockets (send w h d c).1 s) = readyState (sockets w s).
Proof.
  unfold send. case_bool_decide; [done|]. simpl.
  destruct (decide (h = s)) as [->|Hne].
  - by rewrite fn_lookup_insert.
  - by rewrite fn_lookup_insert_ne.
Qed.

Lemma send_sent w h d c s :
  sent (sockets (send w h d c).1 s) =
    if bool_decide (s = h ∧ readyState (sockets w h) = 1)
    then sent (sockets w s) ++ [(d, default false c)]
    else sent (sockets w s).
Proof.
  unfold send. case_bool_decide as Hrs; simpl.
  - rewrite bool_decide_eq_false_2; [done | tauto].
  - destruct (decide (h = s)) as [->|Hne].
    + rewrite fn_lookup_insert, bool_decide_eq_true_2; [done|].
      split; [done|]. destruct (decide (readyState (sockets w s) = 1)); tauto.
    + rewrite fn_lookup_insert_ne by done.
      rewrite bool_decide_eq_false_2; [done|]. intros [-> _]. done.
Qed.

Lemma send_result w h d c :
  (send w h d c).2 = if bool_decide (readyState (sockets w h) = 1) then payload_size d else 0.
Proof.
  unfold send. by case_bool_decide as H1; case_bool_decide as H2.
Qed.

(** One turn of the loop of [publish]. *)
Lemma publish_step_spec h d c w n x :
  let a := publish_step h d c (w, n) x in
  topicRegistry a.1 = topicRegistry w ∧
  (∀ s, readyState (sockets a.1 s) = readyState (sockets w s)) ∧
  (∀ s, sent (sockets a.1 s) =
        if bool_decide (s = x ∧ s ≠ h ∧ readyState (sockets w s) = 1)
        then sent (sockets w s) ++ [(d, default false c)]
        else sent (sockets w s)) ∧
  a.2 = n + (if bool_decide (x ≠ h ∧ readyState (sockets w x) = 1)
             then payload_size d else 0).
Proof.
  cbv zeta. unfold publish_step.
  case_bool_decide as H1; [|case_bool_decide as H2]; simpl.
  - split_and!; [done | done | | ].
    + intros s. rewrite bool_decide_eq_false_2; [done|]. intros (-> & ? & _). done.
    + rewrite bool_decide_eq_false_2; [lia | tauto].
  - split_and!; [done | done | | ].
    + intros s. rewrite bool_decide_eq_false_2; [done|]. intros (-> & _ & ?). done.
    + rewrite bool_decide_eq_false_2; [lia | tauto].
  - pose proof (send_registry w x d c) as Hreg.
    pose proof (send_readyState w x d c) as Hrs.
    pose proof (send_sent w x d c) as Hsent.
    pose proof (send_result w x d c) as Hn.
    destruct (send w x d c) as [w' k]; simpl in *.
    assert (Hopen : readyState (sockets w x) = 1).
    { destruct (decide (readyState (sockets w x) = 1)); tauto. }
    split_and!; [done | done | | ].
    + intros s. rewrite Hsent.
      destruct (decide (s = x)) as [->|Hne].
      * rewrite !bool_decide_eq_true_2; done.
      * rewrite !bool_decide_eq_false_2; [done | tauto | tauto].
    + rewrite Hn, !bool_decide_eq_true_2; done.
Qed.

(** The loop of [publish] over a duplicate-free list of subscribers. *)
Lemma publish_loop h d c (l : list handle) :
  NoDup l →
  ∀ w n,
    let r := foldl (publish_step h d c) (w, n) l in
    topicRegistry r.1 = topicRegistry w ∧
    (∀ s, readyState (sockets r.1 s) = readyState (sockets w s)) ∧
    (∀ s, sent (sockets r.1 s) =
          if bool_decide (s ∈ l ∧ s ≠ h ∧ readyState (sockets w s) = 1)
          then sent (sockets w s) ++ [(d, default false c)]
          else sent (sockets w s)) ∧
    r.2 = n + length (filter (λ s, s ≠ h ∧ readyState (sockets w s) = 1) l) * payload_size d.
Proof.
  induction 1 as [|x l Hx Hnd IH]; intros w n; cbv zeta; cbn [foldl].
  - simpl. split_and!; [done | done | done | lia].
  - destruct (publish_step_spec h d c w n x) as (Hreg & Hrs & Hsent & Hn).
    destruct (publish_step h d c (w, n) x) as [w1 n1]; simpl in *.
    destruct (IH w1 n1) as (IH1 & IH2 & IH3 & IH4).
    split_and!.
    + by rewrite IH1.
    + intros s. by rewrite IH2.
    + intros s. rewrite IH3, Hsent, Hrs.
      pose proof (elem_of_cons l s x) as Hcons.
      repeat case_bool_decide; try done; exfalso; intuition (subst; tauto).
    + rewrite IH4, Hn.
      rewrite (list_filter_iff _ (λ s, s ≠ h ∧ readyState (sockets w s) = 1) l)
        by (intros s; by rewrite Hrs).
      rewrite filter_cons. case_bool_decide; case_decide; simpl; try tauto; lia.
Qed.

Lemma elem_of_recipients w h t s :
  s ∈ recipients w h t ↔
  s ≠ h ∧ readyState (sockets w s) = 1 ∧ ∃ subs, topicRegistry w !! t = Some subs ∧ s ∈ subs.
Proof.
  unfold recipients. rewrite list_elem_of_filter, elem_of_elements.
  destruct (topicRegistry w !! t) as [subs|]; simpl.
  - split; [intros [[??]?]; eauto 6 | intros (?&?&?&[= <-]&?); done].
  - split; [intros [_ []%elem_of_empty] | intros (_&_&?&[=]&_)].
Qed.

(** [publish] as a whole: the registry and the ready states stay as they
    are, each recipient gets one more frame, nobody else gets anything,
    and the result adds up what [send] returned for the recipients. *)
Lemma publish_spec w h t d c :
  let r := publish w h t d c in
  topicRegistry r.1 = topicRegistry w ∧
  (∀ s, readyState (sockets r.1 s) = readyState (sockets w s)) ∧
  (∀ s, sent (sockets r.1 s) =
        if bool_decide (s ∈ recipients w h t)
        then sent (sockets w s) ++ [(d, default false c)]
        else sent (sockets w s)) ∧
  r.2 = length (recipients w h t) * payload_size d.
Proof.
  cbv zeta. unfold publish, recipients.
  destruct (topicRegistry w !! t) as [subs|] eqn:Ht; simpl.
  - destruct (publish_loop h d c (elements subs) (NoDup_elements subs) w 0)
      as (H1 & H2 & H3 & H4).
    split_and!; [done | done | | done].
    intros s. rewrite H3.
    pose proof (list_elem_of_filter (λ s, s ≠ h ∧ readyState (sockets w s) = 1)
                  (elements subs) s) as Hf.
    repeat case_bool_decide; try done; exfalso; tauto.
  - rewrite elements_empty. simpl. done.
Qed.

(** *** Ready states and frames of a closed connection *)

Lemma step_closed w o h :
  readyState (sockets w h) = CLOSED →
  readyState (sockets (step w o) h) = CLOSED ∧
  sent (sockets (step w o) h) = sent (sockets w h).
Proof.
  unfold CLOSED. intros Hc. destruct o as [h' t|h' t|h' t d c|h' d c|h'|h'|h']; simpl.
  - unfold subscribe. by destruct (topicRegistry w !! t).
  - unfold unsubscribe. by destruct (topicRegistry w !! t).
  - destruct (publish_spec w h' t d c) as (_ & H2 & H3 & _).
    rewrite H2, H3. split; [done|].
    rewrite bool_decide_eq_false_2; [done|].
    rewrite elem_of_recipients. intros (_ & ? & _). congruence.
  - rewrite send_readyState, send_sent. split; [done|].
    rewrite bool_decide_eq_false_2; [done|]. intros [-> ?]. congruence.
  - unfold close. case_bool_decide; [done|]. simpl.
    destruct (decide (h' = h)) as [->|]; [lia|]. by rewrite fn_lookup_insert_ne.
  - unfold ws_opened, CONNECTING. case_bool_decide; [|done]. simpl.
    destruct (decide (h' = h)) as [->|]; [congruence|]. by rewrite fn_lookup_insert_ne.
  - unfold ws_closed, cleanup; simpl.
    destruct (decide (h' = h)) as [->|].
    + by rewrite fn_lookup_insert.
    + by rewrite fn_lookup_insert_ne.
Qed.

Lemma run_closed ops : ∀ w h,
  readyState (sockets w h) = CLOSED →
  readyState (sockets (run w ops) h) = CLOSED ∧
  sent (sockets (run w ops) h) = sent (sockets w h).
Proof.
  unfold run. induction ops as [|o ops IH]; intros w h Hc; simpl; [done|].
  destruct (step_closed w o h Hc) as [H1 H2].
  destruct (IH (step w o) h H1) as [H3 H4]. split; [done | congruence].
Qed.

(** *** Membership after the operations *)

Lemma isSubscribed_false w h t :
  isSubscribed w h t = false ↔ ∀ subs, topicRegistry w !! t = Some subs → h ∉ subs.
Proof.
  unfold isSubscribed. destruct (topicRegistry w !! t) as [subs|].
  - rewrite bool_decide_eq_false. split; [by intros ? ? [= <-] | eauto].
  - split; [intros _ ? [=] | done].
Qed.

Lemma cleanup_lookup w h t subs :
  topicRegistry (cleanup w h) !! t = Some subs →
  (h ∉ subs) ∧ subs ≠ ∅ ∧ (∃ subs0, topicRegistry w !! t = Some subs0 ∧ subs = subs0 ∖ {[h]}).
Proof.
  unfold cleanup; simpl. rewrite lookup_omap.
  destruct (topicRegistry w !! t) as [subs0|]; simpl; [|done].
  unfold cleanup_entry. case_bool_decide as Hsz; [done|]. intros [= <-].
  split_and!.
  - rewrite elem_of_difference, elem_of_singleton. tauto.
  - intros He. apply Hsz. rewrite He. apply size_empty.
  - eauto.
Qed.

Lemma cleanup_in_no_topic w h : in_no_topic (cleanup w h) h.
Proof. intros t subs Ht. by apply cleanup_lookup in Ht as (? & _). Qed.

Lemma step_in_no_topic w o h :
  subscribes h o = false → in_no_topic w h → in_no_topic (step w o) h.
Proof.
  intros Ho Hw. destruct o as [h' t|h' t|h' t d c|h' d c|h'|h'|h']; simpl in *.
  - apply bool_decide_eq_false in Ho. intros t' subs. unfold subscribe.
    destruct (topicRegistry w !! t) as [subs0|] eqn:Ht; simpl;
      rewrite lookup_insert_Some; intros [[<- <-]|[_ Hl]].
    + rewrite elem_of_union, elem_of_singleton. intros [?|?]; [by eapply Hw|done].
    + by eapply Hw.
    + rewrite elem_of_union, elem_of_singleton, elem_of_empty. intros [[]|?]. done.
    + apply lookup_insert_Some in Hl as [[_ <-]|[_ Hl]]; [apply not_elem_of_empty|].
      by eapply Hw.
  - intros t' subs. unfold unsubscribe.
    destruct (topicRegistry w !! t) as [subs0|] eqn:Ht; simpl; [|by apply Hw].
    case_bool_decide.
    + rewrite lookup_delete_Some, lookup_insert_Some.
      intros [Hne [[? _]|[_ Hl]]]; [done | by eapply Hw].
    + rewrite lookup_insert_Some. intros [[<- <-]|[_ Hl]]; [|by eapply Hw].
      rewrite elem_of_difference. intros [? _]. by eapply Hw.
  - destruct (publish_spec w h' t d c) as (H1 & _). intros t' subs. rewrite H1. apply Hw.
  - intros t' subs. rewrite send_registry. apply Hw.
  - unfold close. case_bool_decide; [done|]. exact Hw.
  - unfold ws_opened. case_bool_decide; [|done]. exact Hw.
  - intros t' subs Hl. apply cleanup_lookup in Hl as (_ & _ & subs0 & Hl & ->).
    rewrite elem_of_difference. intros [? _]. by eapply Hw.
Qed.

Lemma run_in_no_topic ops : ∀ w h,
  forallb (λ o, negb (subscribes h o)) ops = true →
  in_no_topic w h → in_no_topic (run w ops) h.
Proof.
  unfold run. induction ops as [|o ops IH]; intros w h Hops Hw; simpl in *; [done|].
  apply andb_true_iff in Hops as [Ho Hops]. apply negb_true_iff in Ho.
  apply IH; [done|]. by apply step_in_no_topic.
Qed.

(** *** The registry holds no empty set *)

Lemma step_no_empty_topic w o : no_empty_topic w → no_empty_topic (step w o).
Proof.
  intros Hw. destruct o as [h t|h t|h t d c|h d c|h|h|h]; simpl.
  - intros t' subs. unfold subscribe.
    assert (Hne : ∀ X : gset handle, X ∪ {[h]} ≠ ∅).
    { intros X HX. apply (not_elem_of_empty (C:=gset handle) h). rewrite <- HX.
      rewrite elem_of_union, elem_of_singleton. by right. }
    destruct (topicRegistry w !! t) as [subs0|] eqn:Ht; simpl;
      rewrite lookup_insert_Some; intros [[<- <-]|[Hn Hl]]; try apply Hne.
    + by eapply Hw.
    + apply lookup_insert_Some in Hl as [[? _]|[_ Hl]]; [done | by eapply Hw].
  - intros t' subs. unfold unsubscribe.
    destruct (topicRegistry w !! t) as [subs0|] eqn:Ht; simpl; [|by apply Hw].
    case_bool_decide as Hsz.
    + rewrite lookup_delete_Some, lookup_insert_Some.
      intros [Hne [[? _]|[_ Hl]]]; [done | by eapply Hw].
    + rewrite lookup_insert_Some. intros [[<- <-]|[_ Hl]]; [|by eapply Hw].
      intros He. apply Hsz. rewrite He. apply size_empty.
  - destruct (publish_spec w h t d c) as (H1 & _). intros t' subs. rewrite H1. apply Hw.
  - intros t' subs. rewrite send_registry. apply Hw.
  - unfold close. case_bool_decide; [done|]. exact Hw.
  - unfold ws_opened. case_bool_decide; [|done]. exact Hw.
  - intros t' subs Hl. by apply cleanup_lookup in Hl as (_ & ? & _).
Qed.

Lemma run_no_empty_topic ops : ∀ w, no_empty_topic w → no_empty_topic (run w ops).
Proof.
  unfold run. induction ops as [|o ops IH]; intros w Hw; simpl; [done|].
  apply IH. by apply step_no_empty_topic.
Qed.

(** *** The claims *)

(** C2, as stated, fails on the return value.  Three open connections
    share the topic [room]; connection 1 publishes the five-character
    text [hello].  The two others each get the frame and the publisher
    gets none, but [publish] returns 10, the sum of what [send] returned
    (the length of the payload, twice), not 2, the number of
    recipients. *)
Lemma publish_result_is_not_the_recipient_count :
  recipients room3 1 "room" = [2; 3] ∧
  (publish room3 1 "room" (PText "hello") None).2 = 10 ∧
  (publish room3 1 "room" (PText "hello") None).2 ≠ length (recipients room3 1 "room").
Proof. vm_compute. split_and!; [done | done | lia]. Qed.

(** C2, amended: [publish(topic, data)] called on [h] hands [data] to
    every other subscriber of [topic] that is open, once; it hands
    nothing to [h] itself, to a subscriber that is not open, or to anyone
    else; and it returns the sum of what [send] returned for the
    recipients, which is their number times the size of the payload.  For
    a topic without an entry in the registry it returns 0 and changes
    nothing. *)
Theorem publish_reaches_open_others_and_adds_up_sizes w h topic data compress :
  let r := publish w h topic data compress in
  (∀ s, s ∈ recipients w h topic →
        sent (sockets r.1 s) = sent (sockets w s) ++ [(data, default false compress)]) ∧
  (∀ s, s ∉ recipients w h topic → sent (sockets r.1 s) = sent (sockets w s)) ∧
  (h ∉ recipients w h topic) ∧
  (∀ s, readyState (sockets w s) ≠ OPEN → s ∉ recipients w h topic) ∧
  (∀ s subs, topicRegistry w !! topic = Some subs → s ∈ subs → s ≠ h →
             readyState (sockets w s) = OPEN → s ∈ recipients w h topic) ∧
  r.2 = length (recipients w h topic) * payload_size data ∧
  (topicRegistry w !! topic = None → r = (w, 0)).
Proof.
  cbv zeta. destruct (publish_spec w h topic data compress) as (_ & _ & H3 & H4).
  split_and!.
  - intros s Hs. by rewrite H3, bool_decide_eq_true_2.
  - intros s Hs. by rewrite H3, bool_decide_eq_false_2.
  - rewrite elem_of_recipients. tauto.
  - intros s Hs. rewrite elem_of_recipients. unfold OPEN in Hs. tauto.
  - intros s subs Ht Hs Hne Ho. rewrite elem_of_recipients. eauto.
  - done.
  - intros Ht. unfold publish. by rewrite Ht.
Qed.

Lemma publish_reaches_open_others_and_adds_up_sizes_witness :
  sent (sockets (publish room3 1 "room" (PText "hello") None).1 2) = [(PText "hello", false)] ∧
  sent (sockets (publish room3 1 "room" (PText "hello") None).1 1) = [] ∧
  (publish room3 1 "room" (PText "hello") None).2 = 2 * 5 ∧
  publish room3 1 "lobby" (PText "hello") None = (room3, 0).
Proof.
  destruct (publish_reaches_open_others_and_adds_up_sizes room3 1 "room" (PText "hello") None)
    as (H1 & H2 & _ & _ & _ & H6 & _).
  destruct (publish_reaches_open_others_and_adds_up_sizes room3 1 "lobby" (PText "hello") None)
    as (_ & _ & _ & _ & _ & _ & H7).
  split_and!.
  - apply (H1 2). vm_compute. apply list_elem_of_here.
  - apply (H2 1). vm_compute. intros H. apply elem_of_cons in H as [[=]|H].
    apply elem_of_cons in H as [[=]|H]. by apply elem_of_nil in H.
  - exact H6.
  - apply H7. reflexivity.
Defined.

(** C10: [publish] leaves the subscription state alone.  After
    [h.publish(topic, data)] the registry, every subscriber set in it and
    every answer of [isSubscribed] are what they were, also when some
    subscribers are not open and are skipped. *)
Theorem publish_keeps_subscriptions w h topic data compress :
  topicRegistry (publish w h topic data compress).1 = topicRegistry w ∧
  ∀ h' topic', isSubscribed (publish w h topic data compress).1 h' topic'
               = isSubscribed w h' topic'.
Proof.
  destruct (publish_spec w h topic data compress) as (H1 & _).
  split; [done|]. intros h' topic'. unfold isSubscribed. by rewrite H1.
Qed.

(** C7: once the transport has closed the connection of [h] (the close
    event runs the cleanup that the constructor registered), [h] is in no
    subscriber set: [isSubscribed] is false for every topic, and stays so
    through whatever the connections do next, short of [h] subscribing
    anew; and whatever they do next, a publish included, hands no frame
    to [h] and does not count [h] among its recipients. *)
Theorem closed_handle_is_out_of_every_topic w h ops ops' topic h' topic' :
  forallb (λ o, negb (subscribes h o)) ops = true →
  isSubscribed (ws_closed w h) h topic = false ∧
  isSubscribed (run (ws_closed w h) ops) h topic = false ∧
  sent (sockets (run (ws_closed w h) ops') h) = sent (sockets w h) ∧
  h ∉ recipients (run (ws_closed w h) ops') h' topic'.
Proof.
  intros Hops.
  assert (Hc : readyState (sockets (ws_closed w h) h) = CLOSED).
  { unfold ws_closed, cleanup; simpl. by rewrite fn_lookup_insert. }
  assert (Hs : sent (sockets (ws_closed w h) h) = sent (sockets w h)).
  { unfold ws_closed, cleanup; simpl. by rewrite fn_lookup_insert. }
  pose proof (cleanup_in_no_topic
    (mkWorld (<[h := mkWs CLOSED (sent (sockets w h))]> (sockets w)) (topicRegistry w)) h)
    as Hout.
  fold (ws_closed w h) in Hout.
  destruct (run_closed ops' _ _ Hc) as [Hc' Hs'].
  split_and!.
  - apply isSubscribed_false. intros subs. apply Hout.
  - apply isSubscribed_false. intros subs. by apply run_in_no_topic.
  - congruence.
  - rewrite elem_of_recipients. intros (_ & Ho & _). unfold CLOSED in Hc'. congruence.
Qed.

Lemma closed_handle_is_out_of_every_topic_witness :
  isSubscribed (ws_closed room3 2) 2 "room" = false ∧
  isSubscribed (run (ws_closed room3 2) [OpSubscribe 4 "room"; OpPublish 1 "room" (PText "x") None])
               2 "room" = false ∧
  sent (sockets (run (ws_closed room3 2) [OpSubscribe 2 "room"; OpPublish 1 "room" (PText "x") None]) 2)
    = sent (sockets room3 2) ∧
  2 ∉ recipients (run (ws_closed room3 2) [OpSubscribe 2 "room"; OpPublish 1 "room" (PText "x") None])
                 1 "room".
Proof.
  apply (closed_handle_is_out_of_every_topic room3 2
           [OpSubscribe 4 "room"; OpPublish 1 "room" (PText "x") None]
           [OpSubscribe 2 "room"; OpPublish 1 "room" (PText "x") None]
           "room" 1 "room").
  reflexivity.
Defined.

(** C9: starting from the empty registry, after any sequence of
    operations (subscribe, unsubscribe, the cleanup run by a close, and
    the others) no entry of the registry holds an empty set.  An entry is
    created by the first subscribe to its topic, and it is deleted when
    its last subscriber leaves, by [unsubscribe] or by the cleanup. *)
Theorem registry_keeps_no_empty_topic socks ops h topic :
  let w := run (mkWorld socks ∅) ops in
  no_empty_topic w ∧
  (topicRegistry w !! topic = None →
     topicRegistry (subscribe w h topic) !! topic = Some {[h]}) ∧
  (topicRegistry w !! topic = Some {[h]} →
     topicRegistry (unsubscribe w h topic) !! topic = None ∧
     topicRegistry (ws_closed w h) !! topic = None).
Proof.
  cbv zeta. set (w := run _ ops). split_and!.
  - apply run_no_empty_topic. intros t subs. simpl. by rewrite lookup_empty.
  - intros Ht. unfold subscribe. rewrite Ht. simpl.
    rewrite lookup_insert_eq. f_equal. apply (left_id_L ∅ (∪)).
  - intros Ht. split.
    + unfold unsubscribe. rewrite Ht. cbv zeta. cbn [topicRegistry].
      rewrite (difference_diag_L (C:=gset handle)).
      rewrite bool_decide_eq_true_2 by apply size_empty.
      apply lookup_delete_eq.
    + unfold ws_closed, cleanup. cbn [topicRegistry]. rewrite lookup_omap, Ht.
      cbn [mbind option_bind]. unfold cleanup_entry.
      rewrite (difference_diag_L (C:=gset handle)).
      by rewrite bool_decide_eq_true_2 by apply size_empty.
Qed.

Lemma registry_keeps_no_empty_topic_witness :
  no_empty_topic (run all_open [OpSubscribe 1 "a"; OpSubscribe 2 "a"; OpWsClosed 2]) ∧
  topicRegistry (subscribe (run all_open [OpSubscribe 1 "a"; OpSubscribe 2 "a"; OpWsClosed 2]) 1 "b")
    !! "b" = Some {[1]} ∧
  topicRegistry (unsubscribe (run all_open [OpSubscribe 1 "a"; OpSubscribe 2 "a"; OpWsClosed 2]) 1 "a")
    !! "a" = None.
Proof.
  destruct (registry_keeps_no_empty_topic (λ _, mkWs OPEN [])
              [OpSubscribe 1 "a"; OpSubscribe 2 "a"; OpWsClosed 2] 1 "a") as (H1 & _ & H3).
  destruct (registry_keeps_no_empty_topic (λ _, mkWs OPEN [])
              [OpSubscribe 1 "a"; OpSubscribe 2 "a"; OpWsClosed 2] 1 "b") as (_ & H2 & _).
  split_and!.
  - exact H1.
  - apply H2. vm_compute. reflexivity.
  - apply H3. vm_compute. reflexivity.
Defined.

End ShimFacts.

(* ===================================================================== *)
(** * Properties of the upgrade bridge                                    *)
(* ===================================================================== *)

Module BridgeFacts.
Import Bridge.

(** A run that returns without calling [server.upgrade] leaves the flag
    of the fake server down. *)
Lemma run_callback_returns v f : run_callback (Returns v) f = (inl v, f).
Proof. reflexivity. Qed.

(** Whatever the run, once it has called [server.upgrade] the flag is up. *)
Lemma run_callback_flag p : ∀ f,
  calls_facade p = true → shouldUpgrade (run_callback p f).2 = true.
Proof.
  assert (Hup : ∀ q f, shouldUpgrade f = true → shouldUpgrade (run_callback q f).2 = true).
  { induction q as [v|e|opts k IH]; intros f Hf; simpl; [done | done |]. by apply IH. }
  destruct p as [v|e|opts k]; intros f Hc; simpl in *; [done | done |]. by apply Hup.
Qed.

(** C6, as stated, fails when the value returned is not a [Response].
    The user's [upgrade] returns the string [forbidden] (or nothing at
    all) without calling [server.upgrade]: the bridge returns without
    destroying the socket.  The handshake is not completed and [open] is
    not called. *)
Lemma refusal_without_response_leaves_socket :
  handleUpgrade (λ _, Some (refusing (VString "forbidden"))) 0 plain_request = (1, []) ∧
  handleUpgrade (λ _, Some (refusing VUndefined)) 0 plain_request = (1, []) ∧
  (EvSocketDestroy ∉ (handleUpgrade (λ _, Some (refusing (VString "forbidden"))) 0 plain_request).2).
Proof. vm_compute. split_and!; [done | done | apply not_elem_of_nil]. Qed.

(** C6, amended: for an upgrade request the bridge handles (not the
    [vite-hmr] one) whose user module defines [upgrade], if the callback
    returns a [Response] without having called [server.upgrade], the
    bridge destroys the socket and does nothing else; whatever the
    callback returns without having called it, the handshake is not
    completed, no shim is made and [open] is not called. *)
Theorem refusal_destroys_socket_on_response modules importCounter req handler callback request v f :
  sec_websocket_protocol req ≠ Some "vite-hmr" →
  modules (S importCounter) = Some handler →
  upgrade handler = Some callback →
  view req = Some request →
  calls_facade (callback request) = false →
  run_callback (callback request) (mkFacade EmptyObject false) = (inl v, f) →
  let evs := (handleUpgrade modules importCounter req).2 in
  (instanceof_Response v = true → evs = [EvSocketDestroy]) ∧
  (EvHandshake ∉ evs) ∧ (EvOpen ∉ evs) ∧ (∀ d r, EvShim d r ∉ evs).
Proof.
  intros Hhmr Hmod Hup Hview Hcalls Hret. cbv zeta. unfold handleUpgrade.
  rewrite bool_decide_eq_false_2 by done.
  rewrite Hmod, Hup, Hview, Hret.
  assert (Hf : shouldUpgrade f = false).
  { destruct (callback request); simpl in *; [by injection Hret as _ <- | | ]; done. }
  rewrite Hf. simpl.
  destruct (instanceof_Response v); simpl.
  - split_and!; [done | | | intros d r];
      intros H; apply list_elem_of_singleton in H; discriminate.
  - split_and!; [done | | | intros d r]; apply not_elem_of_nil.
Qed.

Lemma refusal_destroys_socket_on_response_witness :
  (handleUpgrade (λ _, Some (refusing (VResponse 403 "forbidden"))) 0 plain_request).2
    = [EvSocketDestroy] ∧
  EvOpen ∉ (handleUpgrade (λ _, Some (refusing (VResponse 403 "forbidden"))) 0 plain_request).2.
Proof.
  destruct (refusal_destroys_socket_on_response
              (λ _, Some (refusing (VResponse 403 "forbidden"))) 0 plain_request
              (refusing (VResponse 403 "forbidden")) (λ _, Returns (VResponse 403 "forbidden"))
              (mkView "http://localhost/" "GET" ∅) (VResponse 403 "forbidden")
              (mkFacade EmptyObject false))
    as (H1 & _ & H3 & _); try reflexivity.
  - discriminate.
  - split; [apply H1; reflexivity | exact H3].
Defined.

End BridgeFacts.

(* ===================================================================== *)
(** * Properties of the static responder                                  *)
(* ===================================================================== *)

Module StaticFacts.
Import Static.

(** *** Digits and the range pattern *)

Lemma digit_value_range c : is_digit c = true → (0 ≤ digit_value c ≤ 9)%Z.
Proof.
  unfold is_digit, digit_value. intros [H1 H2]%andb_true_iff.
  apply Nat.leb_le in H1, H2. lia.
Qed.

Lemma parse_digits_nonneg s : ∀ acc, all_digits s = true → (0 ≤ acc)%Z → (0 ≤ parse_digits acc s)%Z.
Proof.
  induction s as [|c s IH]; intros acc Hs Hacc; simpl in *; [done|].
  apply andb_true_iff in Hs as [Hc Hs]. apply IH; [done|].
  pose proof (digit_value_range c Hc). lia.
Qed.

Lemma parseInt_nonneg s : all_digits s = true → (0 ≤ parseInt s)%Z.
Proof. intros Hs. by apply parse_digits_nonneg. Qed.

(** A run of digits followed by something that does not start with a
    digit is taken whole. *)
Lemma take_digits_run g : ∀ r,
  all_digits g = true →
  match r with String c _ => is_digit c = false | EmptyString => True end →
  take_digits (g +:+ r) = (g, r).
Proof.
  induction g as [|c g IH]; intros r Hg Hr.
  - change (EmptyString +:+ r) with r.
    destruct r as [|c r]; [done|]. cbn [take_digits]. by rewrite Hr.
  - change (String c g +:+ r) with (String c (g +:+ r)).
    cbn [take_digits all_digits] in *.
    apply andb_true_iff in Hg as [Hc Hg]. by rewrite Hc, IH.
Qed.

Lemma take_digits_all g : all_digits g = true → take_digits g = (g, EmptyString).
Proof.
  induction g as [|c g IH]; cbn [take_digits all_digits]; [done|].
  intros [Hc Hg]%andb_true_iff. by rewrite Hc, IH.
Qed.

Lemma range_match_here s m : match_here s = Some m → range_match s = Some m.
Proof. intros H. destruct s; cbn [range_match]; by rewrite H. Qed.

(** A header of the single-range form matches, with its start and end as
    the two groups. *)
Lemma range_match_exact g1 g2 :
  all_digits g1 = true → g1 ≠ EmptyString → all_digits g2 = true →
  range_match ("bytes=" +:+ g1 +:+ "-" +:+ g2) = Some (g1, g2).
Proof.
  intros H1 Hne H2. apply range_match_here. unfold match_here.
  change (strip_literal "bytes=" ("bytes=" +:+ g1 +:+ "-" +:+ g2))
    with (Some (g1 +:+ "-" +:+ g2)).
  cbv beta iota.
  rewrite (take_digits_run g1 ("-" +:+ g2) H1) by done.
  rewrite bool_decide_eq_false_2 by done. simpl.
  by rewrite take_digits_all.
Qed.

Lemma append_empty_r (x : string) : x +:+ EmptyString = x.
Proof.
  induction x as [|c x IH]; [done|].
  change (String c x +:+ EmptyString) with (String c (x +:+ EmptyString)). by rewrite IH.
Qed.

(** What [strip_literal] and [take_digits] split off, put back. *)
Lemma strip_literal_app p : ∀ s r, strip_literal p s = Some r → s = p +:+ r.
Proof.
  induction p as [|a p IH]; intros s r; cbn [strip_literal].
  - by intros [= ->].
  - destruct s as [|b s]; [done|]. case_bool_decide as Hab; [|done].
    intros Hs. subst b. change (String a p +:+ r) with (String a (p +:+ r)).
    f_equal. by apply IH.
Qed.

Lemma take_digits_app s : ∀ d r,
  take_digits s = (d, r) → s = d +:+ r ∧ all_digits d = true.
Proof.
  induction s as [|c s IH]; intros d r; cbn [take_digits].
  - by intros [= <- <-].
  - destruct (is_digit c) eqn:Hc; [|by intros [= <- <-]].
    destruct (take_digits s) as [d' r'] eqn:Hs. intros [= <- <-].
    destruct (IH d' r' eq_refl) as [-> Hd]. split; [done|].
    cbn [all_digits]. by rewrite Hc, Hd.
Qed.

(** The two readings of the pattern compared: a header is of the
    single-range form exactly when it is [bytes=<digits>-<digits>] and
    nothing else, and on such a header the search of the code finds these
    two groups.  The search also succeeds on headers that are not of this
    form, whenever the pattern occurs somewhere inside. *)
Lemma single_range_form_spec s :
  single_range_form s = true ↔
  ∃ g1 g2, s = "bytes=" +:+ g1 +:+ "-" +:+ g2 ∧
           all_digits g1 = true ∧ g1 ≠ EmptyString ∧ all_digits g2 = true.
Proof.
  unfold single_range_form. split.
  - destruct (strip_literal "bytes=" s) as [r|] eqn:Hr; [|done].
    apply strip_literal_app in Hr as ->.
    destruct (take_digits r) as [g1 r1] eqn:H1.
    apply take_digits_app in H1 as [-> Hg1].
    intros [Hne Hrest]%andb_true_iff.
    apply negb_true_iff, bool_decide_eq_false in Hne.
    destruct r1 as [|c r2]; [done|].
    destruct (decide (c = "-"%char)) as [->|Hc].
    + apply bool_decide_eq_true in Hrest.
      destruct (take_digits r2) as [g2 r3] eqn:H2. simpl in Hrest. subst r3.
      apply take_digits_app in H2 as [-> Hg2].
      exists g1, g2. rewrite append_empty_r. done.
    + exfalso. destruct c as [[] [] [] [] [] [] [] []]; try done.
  - intros (g1 & g2 & -> & Hg1 & Hne & Hg2).
    change (strip_literal "bytes=" ("bytes=" +:+ g1 +:+ "-" +:+ g2))
      with (Some (g1 +:+ "-" +:+ g2)).
    cbv beta iota.
    rewrite (take_digits_run g1 ("-" +:+ g2) Hg1) by done.
    rewrite bool_decide_eq_false_2 by done.
    change ("-" +:+ g2) with (String "-"%char g2). cbv beta iota.
    rewrite take_digits_all by done. by rewrite bool_decide_eq_true_2.
Qed.

Lemma single_range_form_range_match s :
  single_range_form s = true →
  ∃ g1 g2, s = "bytes=" +:+ g1 +:+ "-" +:+ g2 ∧ range_match s = Some (g1, g2).
Proof.
  intros (g1 & g2 & -> & Hg1 & Hne & Hg2)%single_range_form_spec.
  exists g1, g2. split; [done|]. by apply range_match_exact.
Qed.

(** *** Slices *)

Lemma blob_slice_inclusive bytes start stop :
  (0 ≤ start ≤ stop)%Z →
  blob_slice bytes start (stop + 1) =
    take (Z.to_nat (stop - start + 1)) (drop (Z.to_nat start) bytes).
Proof.
  intros Hr. unfold blob_slice.
  rewrite (proj2 (Z.ltb_ge start 0)) by lia.
  rewrite (proj2 (Z.ltb_ge (stop + 1) 0)) by lia.
  set (len := Z.of_nat (length bytes)).
  destruct (Z.le_gt_cases len start) as [Hle|Hgt].
  - rewrite !drop_ge by lia. by rewrite !take_nil.
  - rewrite (Z.min_l start len) by lia.
    destruct (Z.le_gt_cases (stop + 1) len) as [Hle'|Hgt'].
    + rewrite Z.min_l by lia. f_equal. lia.
    + rewrite Z.min_r by lia.
      rewrite !take_ge; [done | rewrite length_drop; lia | rewrite length_drop; lia].
Qed.

(** Looking a literal header name up in headers built by [insert] and
    [delete] on literal names. *)
Ltac header_lookup :=
  repeat (rewrite lookup_delete_ne by done);
  repeat (rewrite lookup_insert_ne by done);
  first [ by rewrite lookup_insert_eq | by rewrite lookup_delete_eq ].

(** *** The index and the steps of [handle] *)

Section Handle.

Variable base_path : string.
Variable get_mime : string → string.
Variable toUTCString : Z → string.
Variable opts : Opts.

Local Abbreviation build_index := (build_index get_mime opts).
Local Abbreviation strip_base := (strip_base base_path).
Local Abbreviation base_headers := (base_headers toUTCString opts).
Local Abbreviation handle := (handle base_path toUTCString opts).

(** Every entry of the index carries the validator of its size and mtime
    when validators are enabled, and none otherwise. *)
Lemma indexed_etag listing pathname file :
  build_index listing !! pathname = Some file →
  etag file = if use_etag opts then Some (weak_validator (size file) (mtime file)) else None.
Proof.
  unfold Static.build_index.
  assert (Hgen : ∀ l files,
    (∀ p f, files !! p = Some f →
            etag f = if use_etag opts then Some (weak_validator (size f) (mtime f)) else None) →
    ∀ p f, foldl (index_file get_mime opts) files l !! p = Some f →
           etag f = if use_etag opts then Some (weak_validator (size f) (mtime f)) else None).
  { induction l as [|x l IH]; intros files Hfiles; simpl; [done|].
    apply IH. intros p f. unfold index_file.
    destruct (endsWith (rel x) ".br" || endsWith (rel x) ".gz"); [apply Hfiles|].
    rewrite lookup_insert_Some. intros [[_ <-]|[_ Hl]]; [done | by eapply Hfiles]. }
  apply Hgen. intros p f. by rewrite lookup_empty.
Qed.

Lemma truthy_weak_validator sz mt : truthy (Some (weak_validator sz mt)) = true.
Proof. reflexivity. Qed.

Lemma indexed_etag_truthy listing pathname file :
  build_index listing !! pathname = Some file → truthy (etag file) = use_etag opts.
Proof.
  intros H. rewrite (indexed_etag _ _ _ H). destruct (use_etag opts); [|done].
  apply truthy_weak_validator.
Qed.

(** When no encoding is selected the original is served, with [Vary] if
    a sibling exists. *)
Lemma negotiate_none file request hdrs :
  (negotiate file request hdrs).1.2 = None →
  negotiate file request hdrs =
    (abs file, None,
     if has_br file || has_gz file then <["vary" := "Accept-Encoding"]> hdrs else hdrs).
Proof.
  unfold negotiate.
  destruct (has_br file && _); [done|].
  destruct (has_gz file && _); [done|].
  by destruct (has_br file || has_gz file).
Qed.

(** The range step on a header in which the pattern matches, when no
    encoding was selected. *)
Lemma respond_range file request serve_path hdrs r g1 g2 :
  req_headers request !! "range" = Some r →
  range_match r = Some (g1, g2) →
  respond file request serve_path None hdrs =
    let start := parseInt g1 in
    let stop := range_end file g2 in
    if (size file <=? start)%Z || (size file <=? stop)%Z || (stop <? start)%Z then
      mkResponse 416 {["content-range" := "bytes */" +:+ String_ (size file)]} BodyNull
    else
      mkResponse 206
        (<["content-length" := String_ (stop - start + 1)]>
          (<["content-range" :=
               "bytes " +:+ String_ start +:+ "-" +:+ String_ stop +:+ "/" +:+ String_ (size file)]>
             hdrs))
        (BodySlice serve_path start (stop + 1)).
Proof.
  intros Hr Hm. unfold respond. rewrite Hr.
  assert (Hne : r ≠ EmptyString) by (intros ->; discriminate).
  cbn [truthy default]. rewrite bool_decide_eq_false_2 by done.
  unfold id. cbn [negb andb]. by rewrite Hm.
Qed.

(** The range step when there is no [Range] header, or the pattern
    matches nowhere in it, or an encoding was selected. *)
Lemma respond_whole file request serve_path content_encoding hdrs :
  truthy content_encoding = true ∨
  range_match (default EmptyString (req_headers request !! "range")) = None →
  respond file request serve_path content_encoding hdrs =
    mkResponse 200 hdrs (BodyFile serve_path).
Proof.
  unfold respond. intros [->| ->].
  - by rewrite andb_false_r.
  - by destruct (truthy _ && _).
Qed.

Lemma range_end_default file g2 :
  range_end file g2 = if bool_decide (g2 = EmptyString) then (size file - 1)%Z else parseInt g2.
Proof. unfold range_end. by case_bool_decide. Qed.

(** [handle] on a request that finds a file and passes the conditional
    check. *)
Lemma handle_passed files request file :
  files !! strip_base (url_pathname request) = Some file →
  not_modified file request = false →
  handle files request =
    Some (respond file request
            (negotiate file request (base_headers file (strip_base (url_pathname request)))).1.1
            (negotiate file request (base_headers file (strip_base (url_pathname request)))).1.2
            (negotiate file request (base_headers file (strip_base (url_pathname request)))).2).
Proof.
  intros Hf Hp. unfold Static.handle. rewrite Hf, Hp.
  by destruct (negotiate _ _ _) as [[??]?].
Qed.

(** *** The claims *)

(** C3: for an indexed file with validators enabled, a request whose
    [If-None-Match] is exactly the stored validator is answered 304 with
    the base headers and no body.  The answer is the same whatever else
    the request carries, [Accept-Encoding] and [Range] included: neither
    negotiation nor range handling has a say in it. *)
Theorem matching_validator_gets_304 listing request file :
  build_index listing !! strip_base (url_pathname request) = Some file →
  use_etag opts = true →
  req_headers request !! "if-none-match" = etag file →
  handle (build_index listing) request =
    Some (mkResponse 304 (base_headers file (strip_base (url_pathname request))) BodyNull) ∧
  ∀ request',
    url_pathname request' = url_pathname request →
    req_headers request' !! "if-none-match" = req_headers request !! "if-none-match" →
    handle (build_index listing) request' = handle (build_index listing) request.
Proof.
  intros Hf Hu Hm.
  assert (H304 : ∀ rq, url_pathname rq = url_pathname request →
            req_headers rq !! "if-none-match" = etag file →
            handle (build_index listing) rq =
              Some (mkResponse 304 (base_headers file (strip_base (url_pathname request))) BodyNull)).
  { intros rq Hp Hi. unfold Static.handle. rewrite Hp, Hf.
    unfold not_modified. rewrite (indexed_etag_truthy _ _ _ Hf), Hu, Hi.
    by rewrite bool_decide_eq_true_2. }
  split; [by apply H304|].
  intros rq Hp Hi. rewrite (H304 request) by done. apply H304; congruence.
Qed.

(** C1: for an indexed file of size [S] and a request that reaches the
    negotiation step, where no encoding is selected, and whose [Range]
    header is [bytes=<start>-<end>] (the end may be missing and is then
    [S-1]) with [start <= end < S], the answer is 206 with
    [Content-Range: bytes <start>-<end>/<S>], [Content-Length] set to
    [end-start+1], and as body the bytes [start] to [end] of the file,
    both included. *)
Theorem satisfiable_range_gets_206 listing request file g1 g2 start stop :
  build_index listing !! strip_base (url_pathname request) = Some file →
  not_modified file request = false →
  (negotiate file request (base_headers file (strip_base (url_pathname request)))).1.2 = None →
  req_headers request !! "range" = Some ("bytes=" +:+ g1 +:+ "-" +:+ g2) →
  all_digits g1 = true → g1 ≠ EmptyString → all_digits g2 = true →
  start = parseInt g1 →
  stop = (if bool_decide (g2 = EmptyString) then (size file - 1)%Z else parseInt g2) →
  (start ≤ stop < size file)%Z →
  ∃ r, handle (build_index listing) request = Some r ∧
       status r = 206 ∧
       headers r !! "content-range" =
         Some ("bytes " +:+ String_ start +:+ "-" +:+ String_ stop +:+ "/" +:+ String_ (size file)) ∧
       headers r !! "content-length" = Some (String_ (stop - start + 1)) ∧
       body r = BodySlice (abs file) start (stop + 1) ∧
       ∀ read, body_bytes read (body r) =
               take (Z.to_nat (stop - start + 1)) (drop (Z.to_nat start) (read (abs file))).
Proof.
  intros Hf Hp Hn Hr Hg1 Hne Hg2 -> Hstop Hle.
  rewrite <- range_end_default in Hstop. subst stop.
  rewrite (handle_passed _ _ _ Hf Hp).
  rewrite (negotiate_none _ _ _ Hn). cbn [fst snd].
  rewrite (respond_range _ _ _ _ _ g1 g2 Hr) by by apply range_match_exact.
  cbv zeta.
  rewrite (proj2 (Z.leb_gt _ _)), (proj2 (Z.leb_gt _ _)), (proj2 (Z.ltb_ge _ _)) by lia.
  cbn [orb]. eexists. split; [reflexivity|]. cbn [status headers body].
  split_and!; [done | header_lookup | header_lookup | done |].
  intros read. cbn [body_bytes]. apply blob_slice_inclusive.
  pose proof (parseInt_nonneg g1 Hg1). lia.
Qed.

(** C5: for an indexed file of size [S] and a request that reaches the
    negotiation step, where no encoding is selected, and whose [Range]
    header is [bytes=<start>-<end>] with [start >= S], or [end >= S], or
    [start > end], the answer is 416 with [Content-Range: bytes */<S>]
    as its only header and no body. *)
Theorem unsatisfiable_range_gets_416 listing request file g1 g2 start stop :
  build_index listing !! strip_base (url_pathname request) = Some file →
  not_modified file request = false →
  (negotiate file request (base_headers file (strip_base (url_pathname request)))).1.2 = None →
  req_headers request !! "range" = Some ("bytes=" +:+ g1 +:+ "-" +:+ g2) →
  all_digits g1 = true → g1 ≠ EmptyString → all_digits g2 = true →
  start = parseInt g1 →
  stop = (if bool_decide (g2 = EmptyString) then (size file - 1)%Z else parseInt g2) →
  (size file ≤ start ∨ size file ≤ stop ∨ stop < start)%Z →
  handle (build_index listing) request =
    Some (mkResponse 416 {["content-range" := "bytes */" +:+ String_ (size file)]} BodyNull) ∧
  ∀ read r, handle (build_index listing) request = Some r → body_bytes read (body r) = [].
Proof.
  intros Hf Hp Hn Hr Hg1 Hne Hg2 -> Hstop Hcond.
  rewrite <- range_end_default in Hstop. subst stop.
  rewrite (handle_passed _ _ _ Hf Hp).
  rewrite (negotiate_none _ _ _ Hn). cbn [fst snd].
  rewrite (respond_range _ _ _ _ _ g1 g2 Hr) by by apply range_match_exact.
  cbv zeta.
  assert (Hb : (size file <=? parseInt g1)%Z || (size file <=? range_end file g2)%Z
               || (range_end file g2 <? parseInt g1)%Z = true).
  { rewrite !orb_true_iff, !Z.leb_le, Z.ltb_lt. tauto. }
  rewrite Hb. split; [done|]. by intros read r [= <-].
Qed.

(** C8, as stated, fails on its own example.  The pattern is searched
    for anywhere in the header, so the multi-range header
    [bytes=0-4,10-14], which is not of the single-range form, is served
    as the range from 0 to 4: status 206 and five bytes of the 13. *)
Lemma multi_range_header_is_served_as_first_range :
  single_range_form "bytes=0-4,10-14" = false ∧
  status <$> sample_handle (mkRequest "/data.txt" {["range" := "bytes=0-4,10-14"]}) = Some 206 ∧
  body <$> sample_handle (mkRequest "/data.txt" {["range" := "bytes=0-4,10-14"]})
    = Some (BodySlice "/srv/data.txt" 0 5) ∧
  (sample_handle (mkRequest "/data.txt" {["range" := "bytes=0-4,10-14"]})
     ≫= λ r, headers r !! "content-range") = Some "bytes 0-4/13".
Proof. vm_compute. done. Qed.

(** C8, amended: for a request that passes the conditional check and
    whose [Range] header is missing, empty or holds no match of the
    pattern anywhere, the answer is 200 with the whole body that
    negotiation selected (sibling or original) and the accumulated
    headers, the same answer as without the [Range] header. *)
Theorem unmatched_range_is_ignored listing request file :
  build_index listing !! strip_base (url_pathname request) = Some file →
  not_modified file request = false →
  range_match (default EmptyString (req_headers request !! "range")) = None →
  handle (build_index listing) request =
    Some (mkResponse 200
            (negotiate file request (base_headers file (strip_base (url_pathname request)))).2
            (BodyFile (negotiate file request (base_headers file (strip_base (url_pathname request)))).1.1)) ∧
  handle (build_index listing) request =
    handle (build_index listing)
      (mkRequest (url_pathname request) (delete "range" (req_headers request))).
Proof.
  intros Hf Hp Hm.
  assert (Hp' : not_modified file
                  (mkRequest (url_pathname request) (delete "range" (req_headers request))) = false).
  { rewrite <- Hp. unfold not_modified. cbn [req_headers]. by rewrite lookup_delete_ne. }
  assert (Hn : ∀ h, negotiate file
                 (mkRequest (url_pathname request) (delete "range" (req_headers request))) h
               = negotiate file request h).
  { intros h. unfold negotiate. cbn [req_headers]. by rewrite lookup_delete_ne. }
  rewrite (handle_passed _ _ _ Hf Hp).
  rewrite (handle_passed _ (mkRequest _ _) _ Hf Hp'). cbn [url_pathname]. rewrite Hn.
  rewrite !respond_whole; [done | | by right].
  right. cbn [req_headers]. by rewrite lookup_delete_eq.
Qed.

(** C4, as stated, fails for two kinds of request.  [app.js] has both
    siblings.  A request without [Accept-Encoding] whose range cannot be
    satisfied is answered 416 with [Content-Range] as its only header: no
    [Vary], and the original is not served.  A request that accepts [br]
    and carries the stored validator is answered 304 before negotiation:
    no sibling, no [Content-Encoding], no [Vary]. *)
Lemma answers_416_and_304_skip_negotiated_headers :
  sample_handle (mkRequest "/app.js" {["range" := "bytes=100-200"]})
    = Some (mkResponse 416 {["content-range" := "bytes */13"]} BodyNull) ∧
  (sample_handle (mkRequest "/app.js" {["range" := "bytes=100-200"]})
     ≫= λ r, headers r !! "vary") = None ∧
  status <$> sample_handle (mkRequest "/app.js"
      (<["if-none-match" := sample_etag]> {["accept-encoding" := "br"]})) = Some 304 ∧
  body <$> sample_handle (mkRequest "/app.js"
      (<["if-none-match" := sample_etag]> {["accept-encoding" := "br"]})) = Some BodyNull ∧
  (sample_handle (mkRequest "/app.js"
      (<["if-none-match" := sample_etag]> {["accept-encoding" := "br"]}))
     ≫= λ r, headers r !! "content-encoding") = None ∧
  (sample_handle (mkRequest "/app.js"
      (<["if-none-match" := sample_etag]> {["accept-encoding" := "br"]}))
     ≫= λ r, headers r !! "vary") = None.
Proof. vm_compute. done. Qed.

(** C4, amended: for an indexed file with a [.br] or [.gz] sibling and
    a request that passes the conditional check: if [Accept-Encoding]
    includes [br] and the [.br] sibling exists, the answer is 200 with
    that sibling, [Content-Encoding: br], [Vary: Accept-Encoding] and no
    [Content-Length], also when [gzip] is acceptable and [.gz] exists;
    else if it includes [gzip] and the [.gz] sibling exists, the same
    with [gzip]; else the original is selected and [Vary:
    Accept-Encoding] is set: a request in whose [Range] header the range
    pattern does not occur (a request without [Range] among them) is
    answered 200 with the whole original and [Vary]; a range that can be
    satisfied is answered 206 with that slice of the original and
    [Vary]; a range that cannot is answered 416 with an empty body and
    [Content-Range] as its only header. *)
Theorem negotiation_prefers_br_then_gzip listing request file :
  build_index listing !! strip_base (url_pathname request) = Some file →
  not_modified file request = false →
  has_br file || has_gz file = true →
  ∃ r, handle (build_index listing) request = Some r ∧
    if has_br file && includes (default EmptyString (req_headers request !! "accept-encoding")) "br"
    then status r = 200 ∧ body r = BodyFile (abs file +:+ ".br") ∧
         headers r !! "content-encoding" = Some "br" ∧
         headers r !! "vary" = Some "Accept-Encoding" ∧
         headers r !! "content-length" = None
    else if has_gz file && includes (default EmptyString (req_headers request !! "accept-encoding")) "gzip"
    then status r = 200 ∧ body r = BodyFile (abs file +:+ ".gz") ∧
         headers r !! "content-encoding" = Some "gzip" ∧
         headers r !! "vary" = Some "Accept-Encoding" ∧
         headers r !! "content-length" = None
    else
      match range_match (default EmptyString (req_headers request !! "range")) with
      | None =>
          status r = 200 ∧ body r = BodyFile (abs file) ∧
          headers r !! "vary" = Some "Accept-Encoding"
      | Some (g1, g2) =>
          if (size file <=? parseInt g1)%Z || (size file <=? range_end file g2)%Z
             || (range_end file g2 <? parseInt g1)%Z
          then r = mkResponse 416 {["content-range" := "bytes */" +:+ String_ (size file)]}
                     BodyNull
          else status r = 206 ∧
               body r = BodySlice (abs file) (parseInt g1) (range_end file g2 + 1) ∧
               headers r !! "vary" = Some "Accept-Encoding"
      end.
Proof.
  intros Hf Hp Hs. rewrite (handle_passed _ _ _ Hf Hp). eexists. split; [reflexivity|].
  unfold negotiate.
  destruct (has_br file && _) eqn:Hbr; [|destruct (has_gz file && _) eqn:Hgz].
  - cbn [fst snd]. rewrite respond_whole by by left. cbn [status headers body].
    split_and!; [done | done | header_lookup ..].
  - cbn [fst snd]. rewrite respond_whole by by left. cbn [status headers body].
    split_and!; [done | done | header_lookup ..].
  - rewrite Hs. cbn [fst snd].
    destruct (range_match (default EmptyString (req_headers request !! "range")))
      as [[g1 g2]|] eqn:Hm.
    + destruct (req_headers request !! "range") as [range|] eqn:Hr; [|done].
      cbn [default from_option id] in Hm.
      rewrite (respond_range _ _ _ _ _ _ _ Hr Hm). cbv zeta.
      destruct (_ || _ || _); [done|]. cbn [status headers body].
      split_and!; [done | done | header_lookup].
    + rewrite respond_whole by by right. cbn [status headers body].
      split_and!; [done | done | header_lookup].
Qed.

End Handle.

(** *** The theorems at the sample files *)

Lemma matching_validator_gets_304_witness :
  status <$> sample_handle (mkRequest "/data.txt"
      (<["if-none-match" := sample_etag]> {["range" := "bytes=0-4"]})) = Some 304 ∧
  sample_handle (mkRequest "/data.txt" {["if-none-match" := sample_etag]})
    = sample_handle (mkRequest "/data.txt"
        (<["if-none-match" := sample_etag]> {["range" := "bytes=0-4"]})).
Proof.
  destruct (matching_validator_gets_304 EmptyString (λ _, "text/plain")
              (λ _, "Tue, 14 Nov 2023 22:13:20 GMT") sample_opts sample_listing
              (mkRequest "/data.txt" (<["if-none-match" := sample_etag]> {["range" := "bytes=0-4"]}))
              (mkEntry "/srv/data.txt" 13 1700000000000 (Some sample_etag) "text/plain" false false))
    as [H1 H2]; [vm_compute; reflexivity | reflexivity | vm_compute; reflexivity |].
  split.
  - unfold sample_handle, sample_index. by rewrite H1.
  - apply (H2 (mkRequest "/data.txt" {["if-none-match" := sample_etag]}));
      vm_compute; reflexivity.
Defined.

Lemma satisfiable_range_gets_206_witness :
  ∃ r, sample_handle (mkRequest "/data.txt" {["range" := "bytes=0-4"]}) = Some r ∧
       status r = 206 ∧
       headers r !! "content-range" = Some "bytes 0-4/13" ∧
       headers r !! "content-length" = Some "5" ∧
       body r = BodySlice "/srv/data.txt" 0 5 ∧
       ∀ read, body_bytes read (body r) = take 5 (drop 0 (read "/srv/data.txt")).
Proof.
  apply (satisfiable_range_gets_206 EmptyString (λ _, "text/plain")
           (λ _, "Tue, 14 Nov 2023 22:13:20 GMT") sample_opts sample_listing
           (mkRequest "/data.txt" {["range" := "bytes=0-4"]})
           (mkEntry "/srv/data.txt" 13 1700000000000 (Some sample_etag) "text/plain" false false)
           "0" "4" 0%Z 4%Z);
    try (vm_compute; reflexivity).
  - discriminate.
  - vm_compute. split; [discriminate | reflexivity].
Defined.

Lemma unsatisfiable_range_gets_416_witness :
  sample_handle (mkRequest "/data.txt" {["range" := "bytes=100-200"]})
    = Some (mkResponse 416 {["content-range" := "bytes */13"]} BodyNull).
Proof.
  apply (unsatisfiable_range_gets_416 EmptyString (λ _, "text/plain")
           (λ _, "Tue, 14 Nov 2023 22:13:20 GMT") sample_opts sample_listing
           (mkRequest "/data.txt" {["range" := "bytes=100-200"]})
           (mkEntry "/srv/data.txt" 13 1700000000000 (Some sample_etag) "text/plain" false false)
           "100" "200" 100%Z 200%Z);
    try (vm_compute; reflexivity).
  - discriminate.
  - left. vm_compute. discriminate.
Defined.

Lemma unmatched_range_is_ignored_witness :
  sample_handle (mkRequest "/data.txt" {["range" := "items=0-4"]})
    = sample_handle (mkRequest "/data.txt" (delete "range" {["range" := "items=0-4"]})).
Proof.
  apply (unmatched_range_is_ignored EmptyString (λ _, "text/plain")
           (λ _, "Tue, 14 Nov 2023 22:13:20 GMT") sample_opts sample_listing
           (mkRequest "/data.txt" {["range" := "items=0-4"]})
           (mkEntry "/srv/data.txt" 13 1700000000000 (Some sample_etag) "text/plain" false false));
    vm_compute; reflexivity.
Defined.

Lemma negotiation_prefers_br_then_gzip_witness :
  ∃ r, sample_handle (mkRequest "/app.js" {["accept-encoding" := "gzip, deflate, br"]}) = Some r ∧
       status r = 200 ∧ body r = BodyFile "/srv/app.js.br" ∧
       headers r !! "content-encoding" = Some "br" ∧
       headers r !! "vary" = Some "Accept-Encoding" ∧
       headers r !! "content-length" = None.
Proof.
  destruct (negotiation_prefers_br_then_gzip EmptyString (λ _, "text/plain")
           (λ _, "Tue, 14 Nov 2023 22:13:20 GMT") sample_opts sample_listing
           (mkRequest "/app.js" {["accept-encoding" := "gzip, deflate, br"]})
           (mkEntry "/srv/app.js" 13 1700000000000 (Some sample_etag) "text/plain" true true))
    as (r & Hr & Hif); [vm_compute; reflexivity | vm_compute; reflexivity | reflexivity |].
  exists r. split; [exact Hr|].
  match type of Hif with
  | if ?c then _ else _ =>
      assert (Hc : c = true) by (vm_compute; reflexivity); rewrite Hc in Hif
  end.
  exact Hif.
Defined.

End StaticFacts.

(* ===================================================================== *)
(** * More about the shim                                                 *)
(* ===================================================================== *)

Module ShimMore.
Import Shim ShimFacts.

Lemma world_eq w socks reg :
  sockets w = socks → topicRegistry w = reg → mkWorld socks reg = w.
Proof. destruct w; simpl; by intros -> ->. Qed.

Lemma filter_none {A} (P : A → Prop) `{∀ x, Decision (P x)} (l : list A) :
  (∀ x, x ∈ l → ¬ P x) → filter P l = [].
Proof.
  induction l as [|a l IH]; intros Hl; [done|].
  rewrite filter_cons. rewrite decide_False by (apply Hl; left).
  apply IH. intros x Hx. apply Hl. by right.
Qed.

Lemma filter_agree {A} (P Q : A → Prop) `{∀ x, Decision (P x)} `{∀ x, Decision (Q x)}
    (l : list A) :
  (∀ x, x ∈ l → P x ↔ Q x) → filter P l = filter Q l.
Proof.
  induction l as [|a l IH]; intros Hl; [done|].
  rewrite !filter_cons. rewrite IH by (intros x Hx; apply Hl; by right).
  pose proof (Hl a (list_elem_of_here a l)). repeat case_decide; try done; tauto.
Qed.

Lemma world_ext w1 w2 :
  sockets w1 = sockets w2 → topicRegistry w1 = topicRegistry w2 → w1 = w2.
Proof. destruct w1, w2; simpl; by intros -> ->. Qed.

Lemma subscribe_sockets w h t : sockets (subscribe w h t) = sockets w.
Proof. unfold subscribe. by destruct (topicRegistry w !! t). Qed.

(** The registry after [subscribe]: one entry is set. *)
Lemma subscribe_registry w h t :
  topicRegistry (subscribe w h t) =
    <[t := default ∅ (topicRegistry w !! t) ∪ {[h]}]> (topicRegistry w).
Proof.
  unfold subscribe. destruct (topicRegistry w !! t); cbn [topicRegistry default from_option id];
    [done | by rewrite insert_insert_eq].
Qed.

(** X1: [subscribe(topic)] on [h] makes [h] a subscriber of [topic]
    and changes no other membership and no socket. *)
Theorem subscribe_sets_one_membership w h topic h' topic' :
  isSubscribed (subscribe w h topic) h' topic' =
    (if bool_decide (h' = h ∧ topic' = topic) then true else isSubscribed w h' topic') ∧
  sockets (subscribe w h topic) = sockets w.
Proof.
  split; [|unfold subscribe; by destruct (topicRegistry w !! topic)].
  unfold isSubscribed, subscribe.
  destruct (decide (topic' = topic)) as [->|Hne].
  - destruct (decide (h' = h)) as [->|Hh].
    + rewrite (bool_decide_eq_true_2 (h = h ∧ _)) by done.
      destruct (topicRegistry w !! topic) as [subs|] eqn:Ht; cbn [topicRegistry];
        rewrite lookup_insert_eq; apply bool_decide_eq_true_2;
        rewrite elem_of_union, elem_of_singleton; by right.
    + rewrite (bool_decide_eq_false_2 (h' = h ∧ _)) by tauto.
      destruct (topicRegistry w !! topic) as [subs|] eqn:Ht; cbn [topicRegistry];
        rewrite lookup_insert_eq.
      * apply bool_decide_ext. rewrite elem_of_union, elem_of_singleton. tauto.
      * apply bool_decide_eq_false_2.
        rewrite elem_of_union, elem_of_singleton, elem_of_empty. tauto.
  - rewrite bool_decide_eq_false_2 by tauto.
    destruct (topicRegistry w !! topic) as [subs|] eqn:Ht; cbn [topicRegistry];
      rewrite !lookup_insert_ne by done; done.
Qed.

(** X2: [unsubscribe(topic)] on [h] ends the membership of [h] in
    [topic] and changes no other membership and no socket; for a topic
    without an entry it changes nothing at all. *)
Theorem unsubscribe_clears_one_membership w h topic h' topic' :
  isSubscribed (unsubscribe w h topic) h' topic' =
    (if bool_decide (h' = h ∧ topic' = topic) then false else isSubscribed w h' topic') ∧
  sockets (unsubscribe w h topic) = sockets w ∧
  (topicRegistry w !! topic = None → unsubscribe w h topic = w).
Proof.
  split_and!.
  - unfold isSubscribed, unsubscribe.
    destruct (topicRegistry w !! topic) as [subs|] eqn:Ht.
    + cbn [topicRegistry]. destruct (decide (topic' = topic)) as [->|Hne].
      * rewrite Ht. destruct (decide (h' = h)) as [->|Hh].
        -- rewrite (bool_decide_eq_true_2 (h = h ∧ _)) by done.
           destruct (bool_decide (size (subs ∖ {[h]}) = 0)).
           ++ by rewrite lookup_delete_eq.
           ++ rewrite lookup_insert_eq. apply bool_decide_eq_false_2.
              rewrite elem_of_difference, elem_of_singleton. tauto.
        -- rewrite (bool_decide_eq_false_2 (h' = h ∧ _)) by tauto.
           destruct (bool_decide (size (subs ∖ {[h]}) = 0)) eqn:Hsz.
           ++ apply bool_decide_eq_true in Hsz. rewrite lookup_delete_eq.
              symmetry. apply bool_decide_eq_false_2.
              intros Hin. apply size_empty_inv in Hsz.
              apply (not_elem_of_empty (C:=gset handle) h'). apply Hsz.
              rewrite elem_of_difference, elem_of_singleton. tauto.
           ++ rewrite lookup_insert_eq. apply bool_decide_ext.
              rewrite elem_of_difference, elem_of_singleton. tauto.
      * rewrite (bool_decide_eq_false_2 (h' = h ∧ _)) by tauto.
        destruct (bool_decide (size (subs ∖ {[h]}) = 0));
          by rewrite ?lookup_delete_ne, lookup_insert_ne by done.
    + destruct (decide (topic' = topic)) as [->|Hne].
      * rewrite Ht. by destruct (bool_decide (h' = h ∧ _)).
      * by rewrite (bool_decide_eq_false_2 (h' = h ∧ _)) by tauto.
  - unfold unsubscribe. by destruct (topicRegistry w !! topic).
  - intros Ht. unfold unsubscribe. by rewrite Ht.
Qed.

(** X3: subscribing twice is subscribing once. *)
Theorem subscribe_twice w h topic :
  subscribe (subscribe w h topic) h topic = subscribe w h topic.
Proof.
  apply world_ext; [by rewrite !subscribe_sockets|].
  rewrite (subscribe_registry (subscribe w h topic)), (subscribe_registry w).
  rewrite lookup_insert_eq, insert_insert_eq. cbn [default from_option id]. f_equal.
  apply set_eq. intros x. rewrite !elem_of_union. tauto.
Qed.

(** X4: when the registry holds no empty set and [h] is not a
    subscriber of [topic], subscribing and then unsubscribing gives the
    world back: the entry made for a new topic is deleted again, and an
    entry that was there keeps its other subscribers. *)
Theorem subscribe_then_unsubscribe w h topic :
  no_empty_topic w →
  isSubscribed w h topic = false →
  unsubscribe (subscribe w h topic) h topic = w.
Proof.
  intros Hne Hnot. unfold unsubscribe, subscribe.
  destruct (topicRegistry w !! topic) as [subs|] eqn:Ht; cbn [topicRegistry sockets];
    rewrite lookup_insert_eq; cbv zeta.
  - pose proof (proj1 (isSubscribed_false w h topic) Hnot subs Ht) as Hh.
    assert (Hback : (subs ∪ {[h]}) ∖ {[h]} = subs).
    { apply set_eq. intros x. rewrite elem_of_difference, elem_of_union, elem_of_singleton.
      split; [tauto|]. intros Hx. split; [tauto|]. by intros ->. }
    rewrite Hback. rewrite bool_decide_eq_false_2.
    + apply world_eq; [done|]. symmetry. rewrite insert_insert_eq. by apply insert_id.
    + intros Hsz. apply size_empty_inv in Hsz. eapply Hne; [exact Ht|].
      by apply leibniz_equiv.
  - assert (Hback : ((∅ : gset handle) ∪ {[h]}) ∖ {[h]} = ∅).
    { apply set_eq. intros x.
      rewrite elem_of_difference, elem_of_union, elem_of_singleton, elem_of_empty. tauto. }
    rewrite Hback. rewrite bool_decide_eq_true_2 by apply size_empty.
    apply world_eq; [done|]. symmetry.
    rewrite !insert_insert_eq, delete_insert_eq. by apply delete_id.
Qed.

Lemma subscribe_then_unsubscribe_witness :
  unsubscribe (subscribe room3 4 "room") 4 "room" = room3 ∧
  unsubscribe (subscribe room3 4 "lobby") 4 "lobby" = room3.
Proof.
  assert (Hinv : no_empty_topic room3).
  { apply (run_no_empty_topic _ all_open). intros t subs. simpl. by rewrite lookup_empty. }
  split; apply subscribe_then_unsubscribe; try exact Hinv; reflexivity.
Defined.

(** X5: the getter [subscriptions] lists each topic at most once, and
    a topic is in the list exactly when [isSubscribed] says so. *)
Theorem subscriptions_are_the_subscribed_topics w h topic :
  (topic ∈ subscriptions w h ↔ isSubscribed w h topic = true) ∧ NoDup (subscriptions w h).
Proof.
  unfold subscriptions, isSubscribed. split.
  - rewrite list_elem_of_fmap. split.
    + intros ([t subs] & -> & Hin). apply list_elem_of_filter in Hin as [Hh Hin].
      apply elem_of_map_to_list in Hin. simpl in *. rewrite Hin. by apply bool_decide_eq_true_2.
    + destruct (topicRegistry w !! topic) as [subs|] eqn:Ht; [|done].
      intros Hh%bool_decide_eq_true. exists (topic, subs). split; [done|].
      apply list_elem_of_filter. split; [done|]. by apply elem_of_map_to_list.
  - apply (sublist_NoDup _ (map_to_list (topicRegistry w)).*1);
      [apply NoDup_fst_map_to_list | apply fmap_sublist, sublist_filter].
Qed.

(** X6: the cleanup run when the connection of [h] closes touches
    nobody else: every other handle keeps its memberships, its ready
    state and its frames; and [h] is left with no subscription. *)
Theorem close_event_spares_other_handles w h h' topic :
  h' ≠ h →
  isSubscribed (ws_closed w h) h' topic = isSubscribed w h' topic ∧
  sockets (ws_closed w h) h' = sockets w h' ∧
  subscriptions (ws_closed w h) h = [].
Proof.
  intros Hne. split_and!.
  - unfold isSubscribed, ws_closed, cleanup. cbn [topicRegistry]. rewrite lookup_omap.
    destruct (topicRegistry w !! topic) as [subs|]; cbn [mbind option_bind]; [|done].
    unfold cleanup_entry. case_bool_decide as Hsz.
    + symmetry. apply bool_decide_eq_false_2. intros Hin.
      apply size_empty_inv in Hsz. apply (not_elem_of_empty (C:=gset handle) h'). apply Hsz.
      rewrite elem_of_difference, elem_of_singleton. tauto.
    + apply bool_decide_ext. rewrite elem_of_difference, elem_of_singleton. tauto.
  - unfold ws_closed, cleanup. cbn [sockets]. by rewrite fn_lookup_insert_ne.
  - unfold subscriptions. rewrite filter_none; [done|].
    intros [t subs] Hin. apply elem_of_map_to_list in Hin. cbn [snd].
    by apply (cleanup_in_no_topic _ _ _ _ Hin).
Qed.

Lemma close_event_spares_other_handles_witness :
  isSubscribed (ws_closed room3 2) 3 "room" = isSubscribed room3 3 "room" ∧
  sockets (ws_closed room3 2) 3 = sockets room3 3 ∧
  subscriptions (ws_closed room3 2) 2 = [].
Proof. apply (close_event_spares_other_handles room3 2 3 "room"). discriminate. Defined.

(** X7: after [close()] on [h], whatever state the connection was in,
    [send] to [h] returns 0 and hands over no frame, no publish counts
    [h] among its recipients, and a second [close()] changes nothing;
    the memberships of [h] stay until the transport reports the close. *)
Theorem close_call_silences_handle w h data compress h' topic :
  send (close w h) h data compress = (close w h, 0) ∧
  (h ∉ recipients (close w h) h' topic) ∧
  close (close w h) h = close w h ∧
  topicRegistry (close w h) = topicRegistry w ∧
  sent (sockets (close w h) h) = sent (sockets w h).
Proof.
  assert (Hrs : 2 ≤ readyState (sockets (close w h) h)).
  { unfold close. case_bool_decide; [done|]. cbn [sockets]. rewrite fn_lookup_insert.
    unfold CLOSING. simpl. lia. }
  split_and!.
  - unfold send. rewrite bool_decide_eq_true_2; [done | lia].
  - rewrite elem_of_recipients. intros (_ & Ho & _). lia.
  - unfold close at 1. by rewrite bool_decide_eq_true_2.
  - unfold close. by case_bool_decide.
  - unfold close. case_bool_decide; [done|]. cbn [sockets]. by rewrite fn_lookup_insert.
Qed.

(** X8: [publish] does not ask the publisher to be a subscriber.  When
    [h] is not subscribed to [topic], every open subscriber gets the
    frame and the result is their number times the size of the
    payload. *)
Theorem publish_from_outside_reaches_open_subscribers w h topic data compress s :
  isSubscribed w h topic = false →
  isSubscribed w s topic = true →
  readyState (sockets w s) = OPEN →
  sent (sockets (publish w h topic data compress).1 s)
    = sent (sockets w s) ++ [(data, default false compress)] ∧
  (publish w h topic data compress).2 =
    length (filter (λ x, readyState (sockets w x) = OPEN)
                   (elements (default ∅ (topicRegistry w !! topic)))) * payload_size data.
Proof.
  intros Hh Hs Ho.
  destruct (publish_spec w h topic data compress) as (_ & _ & H3 & H4).
  pose proof (proj1 (isSubscribed_false w h topic) Hh) as Hout.
  split.
  - rewrite H3, bool_decide_eq_true_2; [done|]. apply elem_of_recipients.
    unfold isSubscribed in Hs. destruct (topicRegistry w !! topic) as [subs|] eqn:Ht; [|done].
    apply bool_decide_eq_true in Hs. split_and!; [|done|eauto].
    intros ->. by apply (Hout subs).
  - rewrite H4. f_equal. unfold recipients. f_equal. apply filter_agree.
    intros x Hx. split; [tauto|]. intros Hopen. split; [|done]. intros ->.
    destruct (topicRegistry w !! topic) as [subs|] eqn:Ht; cbn [default from_option id] in Hx.
    + apply elem_of_elements in Hx. by apply (Hout subs).
    + rewrite elements_empty in Hx. by apply elem_of_nil in Hx.
Qed.

Lemma publish_from_outside_reaches_open_subscribers_witness :
  sent (sockets (publish room3 7 "room" (PText "hi") None).1 2) = [(PText "hi", false)] ∧
  (publish room3 7 "room" (PText "hi") None).2 = 3 * 2.
Proof.
  apply (publish_from_outside_reaches_open_subscribers room3 7 "room" (PText "hi") None 2);
    reflexivity.
Defined.

(** X9: the two vocabularies of [binaryType].  What the getter reports
    for a binary type of the [ws] library is one of Bun's two names; a
    Bun name written through the setter is read back unchanged; and the
    setter stores a name of the [ws] library. *)
Theorem binaryType_round_trip value t :
  value = "arraybuffer" ∨ value = "uint8array" →
  t = "nodebuffer" ∨ t = "arraybuffer" ∨ t = "fragments" →
  binaryType_get (binaryType_set value) = value ∧
  (binaryType_set value = "nodebuffer" ∨ binaryType_set value = "arraybuffer") ∧
  (binaryType_get t = "arraybuffer" ∨ binaryType_get t = "uint8array").
Proof.
  intros [-> | ->] [-> | [-> | ->]]; vm_compute; tauto.
Qed.

Lemma binaryType_round_trip_witness :
  binaryType_get (binaryType_set "uint8array") = "uint8array" ∧
  (binaryType_set "uint8array" = "nodebuffer" ∨ binaryType_set "uint8array" = "arraybuffer") ∧
  (binaryType_get "fragments" = "arraybuffer" ∨ binaryType_get "fragments" = "uint8array").
Proof.
  apply (binaryType_round_trip "uint8array" "fragments"); [by right | right; by right].
Defined.

End ShimMore.

(* ===================================================================== *)
(** * More about the upgrade bridge                                       *)
(* ===================================================================== *)

Module BridgeMore.
Import Bridge.






(** X10: failure semantics.  For a request the bridge handles, when the
    import of the user module is rejected, or building the [Request]
    for its [upgrade] throws, or [upgrade] itself throws (be it after
    calling [server.upgrade]), the bridge logs the error and destroys the
    socket, and does nothing else: no handshake, no shim, no [open], and
    no import of its own beyond the first. *)
Theorem upgrade_exception_destroys_socket modules importCounter req :
  sec_websocket_protocol req ≠ Some "vite-hmr" →
  modules (S importCounter) = None ∨
  (∃ handler callback,
     modules (S importCounter) = Some handler ∧ upgrade handler = Some callback ∧
     (view req = None ∨
      ∃ request e f, view req = Some request ∧
        run_callback (callback request) (mkFacade EmptyObject false) = (inr e, f))) →
  handleUpgrade modules importCounter req =
    (S importCounter + imports_meanwhile req,
     [EvLogError "[ws-dev] upgrade error:"; EvSocketDestroy]).
Proof.
  intros Hp Hfail. unfold handleUpgrade. rewrite bool_decide_eq_false_2 by done.
  cbv zeta.
  destruct Hfail as [-> | (handler & callback & -> & -> & [-> | (request & e & f & -> & ->)])];
    done.
Qed.

Lemma upgrade_exception_destroys_socket_witness :
  handleUpgrade
    (λ _, Some (mkModule (Some (λ _, CallsUpgrade None (λ _, Throws "boom"))) true))
    0 plain_request
  = (1, [EvLogError "[ws-dev] upgrade error:"; EvSocketDestroy]).
Proof.
  apply (upgrade_exception_destroys_socket
           (λ _, Some (mkModule (Some (λ _, CallsUpgrade None (λ _, Throws "boom"))) true))
           0 plain_request); [discriminate|].
  right. eexists _, _. split_and!; [reflexivity | reflexivity |].
  right. eexists _, _, _. split; reflexivity.
Defined.

(** X12: the module imported for [open] cannot change the decision on
    the upgrade.  Two states of the user module that agree on the first
    import of [handleUpgrade] leave the counter the same and give the
    same trace, or two traces that both complete the handshake and make
    the same shim and differ only in what follows it; if they also agree
    on the import [setupHandlers] makes, numbered after the imports that
    other events started in between, the outcome is the same. *)
Theorem open_import_cannot_change_the_upgrade_decision modules modules' importCounter req :
  modules (S importCounter) = modules' (S importCounter) →
  (handleUpgrade modules importCounter req).1 = (handleUpgrade modules' importCounter req).1 ∧
  ((handleUpgrade modules importCounter req).2 = (handleUpgrade modules' importCounter req).2 ∨
   ∃ d r tl tl',
     (handleUpgrade modules importCounter req).2 = EvHandshake :: EvShim d r :: tl ∧
     (handleUpgrade modules' importCounter req).2 = EvHandshake :: EvShim d r :: tl') ∧
  (modules (S (S importCounter + imports_meanwhile req))
     = modules' (S (S importCounter + imports_meanwhile req)) →
   handleUpgrade modules importCounter req = handleUpgrade modules' importCounter req).
Proof.
  intros H1.
  assert (Hacc : ∀ c d,
    (accept modules c req d).1 = (accept modules' c req d).1 ∧
    ((accept modules c req d).2 = (accept modules' c req d).2 ∨
     ∃ d' r tl tl',
       (accept modules c req d).2 = EvHandshake :: EvShim d' r :: tl ∧
       (accept modules' c req d).2 = EvHandshake :: EvShim d' r :: tl') ∧
    (modules (S c) = modules' (S c) → accept modules c req d = accept modules' c req d)).
  { intros c d. unfold accept, setupHandlers.
    destruct (handshake_ok req); [|by split_and!; [|left|]].
    split_and!.
    - by destruct (modules (S c)), (modules' (S c)).
    - right. destruct (modules (S c)), (modules' (S c)); cbn [snd];
        by eexists _, _, _, _.
    - by intros ->. }
  unfold handleUpgrade. case_bool_decide; [by split_and!; [|left|]|]. cbv zeta.
  rewrite <- H1. destruct (modules (S importCounter)) as [handler|]; [|by split_and!; [|left|]].
  destruct (upgrade handler) as [callback|]; [|apply Hacc].
  destruct (view req) as [request|]; [|by split_and!; [|left|]].
  destruct (run_callback _ _) as [[v|e] f]; [|by split_and!; [|left|]].
  destruct (shouldUpgrade f); cbn [negb]; [apply Hacc|by split_and!; [|left|]].
Qed.

Lemma open_import_cannot_change_the_upgrade_decision_witness :
  (handleUpgrade first_import_only 0 busy_request).1
    = (handleUpgrade (λ _, Some (mkModule None true)) 0 busy_request).1 ∧
  ∃ d r tl tl',
    (handleUpgrade first_import_only 0 busy_request).2 = EvHandshake :: EvShim d r :: tl ∧
    (handleUpgrade (λ _, Some (mkModule None true)) 0 busy_request).2
      = EvHandshake :: EvShim d r :: tl'.
Proof.
  destruct (open_import_cannot_change_the_upgrade_decision
              first_import_only (λ _, Some (mkModule None true)) 0 busy_request eq_refl)
    as (Hc & [Heq | Hshape] & _); [discriminate Heq | exact (conj Hc Hshape)].
Defined.

(** The fake server after a run: the data of the last call, flag up. *)
Lemma run_callback_last p : ∀ f opts,
  list.last (facade_calls p) = Some opts →
  (run_callback p f).2 = mkFacade (data_of opts) true.
Proof.
  induction p as [v|e|o k IH]; intros f opts; cbn [facade_calls run_callback];
    [done | done |].
  destruct (facade_calls (k true)) as [|o' l] eqn:Hk.
  - intros [= <-]. destruct (k true); cbn [facade_calls run_callback] in *; done.
  - rewrite last_cons_cons. rewrite <- Hk. apply IH.
Qed.

(** X13: the data and the address attached to the shim.  When the
    user's [upgrade] calls [server.upgrade] and then returns, whatever
    it returns (a [Response] included), the connection is accepted; on a
    completed handshake the shim carries the data of the last call of
    [server.upgrade], [{}] if that call gave none, and an address that
    is never empty: the remote address of the socket, or [127.0.0.1] if
    the socket has none or an empty one. *)
Theorem accepted_shim_carries_last_upgrade_data
    modules importCounter req handler callback request v f opts :
  sec_websocket_protocol req ≠ Some "vite-hmr" →
  modules (S importCounter) = Some handler →
  upgrade handler = Some callback →
  view req = Some request →
  run_callback (callback request) (mkFacade EmptyObject false) = (inl v, f) →
  list.last (facade_calls (callback request)) = Some opts →
  handshake_ok req = true →
  ∃ remote tl,
    (handleUpgrade modules importCounter req).2 =
      EvHandshake :: EvShim (data_of opts) remote :: tl ∧
    remote ≠ EmptyString ∧
    (∀ a, remoteAddress req = Some a → a ≠ EmptyString → remote = a) ∧
    (remoteAddress req = None ∨ remoteAddress req = Some EmptyString →
     remote = "127.0.0.1").
Proof.
  intros Hp Hm Hu Hv Hrun Hlast Hok.
  pose proof (run_callback_last _ (mkFacade EmptyObject false) _ Hlast) as Hf.
  rewrite Hrun in Hf. cbn [snd] in Hf. subst f.
  unfold handleUpgrade. rewrite bool_decide_eq_false_2 by done. cbv zeta.
  rewrite Hm, Hu, Hv, Hrun. cbn [shouldUpgrade upgradeData negb].
  unfold accept. rewrite Hok. destruct (setupHandlers _ _) as [c evs].
  exists (or_else (remoteAddress req) "127.0.0.1"), evs. split; [done|].
  unfold or_else. destruct (remoteAddress req) as [a|]; [case_bool_decide|];
    split_and!; try done.
  - by intros ? [= <-].
  - by intros ? [= <-].
  - intros [|[= ->]]; done.
Qed.

Lemma accepted_shim_carries_last_upgrade_data_witness :
  ∃ remote tl,
    (handleUpgrade (λ _, Some (mkModule (Some upgrading_twice) true)) 0 busy_request).2
      = EvHandshake :: EvShim (UserData "token") remote :: tl ∧
    remote = "127.0.0.1".
Proof.
  destruct (accepted_shim_carries_last_upgrade_data
              (λ _, Some (mkModule (Some upgrading_twice) true)) 0 busy_request
              (mkModule (Some upgrading_twice) true) upgrading_twice
              (mkView "http://localhost/" "GET" ∅) (VResponse 500 "Upgrade failed")
              (mkFacade (UserData "token") true) (Some (Some "token")))
    as (remote & tl & Htrace & _ & _ & Hdefault); try reflexivity; [discriminate|].
  exists remote, tl. split; [exact Htrace|]. apply Hdefault. by right.
Defined.

End BridgeMore.

(* ===================================================================== *)
(** * More about the static responder                                     *)
(* ===================================================================== *)

Module StaticMore.
Import Static StaticFacts.

(** *** Strings *)

Lemma length_slice_from n : ∀ s, String.length (slice_from n s) = String.length s - n.
Proof.
  induction n as [|n IH]; intros s; cbn [slice_from]; [lia|].
  destruct s as [|c s]; [done|]. rewrite IH. simpl. lia.
Qed.

(** A suffix that does not start with [a] ends [String a r] exactly when
    it ends [r]. *)
Lemma endsWith_cons a r b p :
  a ≠ b → endsWith (String a r) (String b p) = endsWith r (String b p).
Proof.
  intros Hab. unfold endsWith.
  set (m := String.length (String b p)).
  change (String.length (String a r)) with (S (String.length r)).
  destruct (le_lt_dec m (String.length r)) as [Hle|Hlt].
  - rewrite (proj2 (Nat.leb_le m (S (String.length r)))) by lia.
    rewrite (proj2 (Nat.leb_le m (String.length r))) by lia.
    replace (S (String.length r) - m) with (S (String.length r - m)) by lia. done.
  - rewrite (proj2 (Nat.leb_gt m (String.length r))) by lia.
    destruct (decide (m = S (String.length r))) as [Hm|Hm].
    + rewrite Hm, Nat.sub_diag. cbn [slice_from].
      rewrite bool_decide_eq_false_2; [by rewrite andb_false_r|].
      intros [= ? _]. done.
    + by rewrite (proj2 (Nat.leb_gt m (S (String.length r)))) by lia.
Qed.

Lemma is_sibling_slash r : is_sibling ("/" +:+ r) = is_sibling r.
Proof.
  unfold is_sibling. change ("/" +:+ r) with (String "/"%char r).
  by rewrite !endsWith_cons by done.
Qed.

Lemma prefix_app b : ∀ p, String.prefix b (b +:+ p) = true.
Proof.
  induction b as [|c b IH]; intros p; [by destruct p|].
  change (String c b +:+ p) with (String c (b +:+ p)). cbn [String.prefix].
  destruct (ascii_dec c c); [apply IH | done].
Qed.

Lemma slice_from_app b : ∀ p, slice_from (String.length b) (b +:+ p) = p.
Proof. induction b as [|c b IH]; intros p; [done|]. apply IH. Qed.

(** *** The index *)

Section Index.

Variable get_mime : string → string.
Variable opts : Opts.

Local Abbreviation build_index := (build_index get_mime opts).
Local Abbreviation index_file := (index_file get_mime opts).
Local Abbreviation entry_of := (entry_of get_mime opts).

Lemma index_file_spec files f :
  index_file files f =
    if is_sibling (rel f) then files else <["/" +:+ rel f := entry_of f]> files.
Proof. reflexivity. Qed.

Lemma index_sound l : ∀ files pathname file,
  foldl index_file files l !! pathname = Some file →
  files !! pathname = Some file ∨
  ∃ f, f ∈ l ∧ is_sibling (rel f) = false ∧ pathname = "/" +:+ rel f ∧ file = entry_of f.
Proof.
  induction l as [|x l IH]; intros files pathname file; cbn [foldl]; [by left|].
  intros [Hl|(f & Hf & ?)]%IH; [|right; exists f; split; [by right|done]].
  rewrite index_file_spec in Hl. destruct (is_sibling (rel x)) eqn:Hx; [by left|].
  apply lookup_insert_Some in Hl as [[<- <-]|[_ Hl]]; [|by left].
  right. exists x. split_and!; [by left | done..].
Qed.

Lemma index_keeps l : ∀ files pathname,
  (∀ f, f ∈ l → "/" +:+ rel f ≠ pathname) →
  foldl index_file files l !! pathname = files !! pathname.
Proof.
  induction l as [|x l IH]; intros files pathname Hl; cbn [foldl]; [done|].
  rewrite IH by (intros f Hf; apply Hl; by right).
  rewrite index_file_spec. destruct (is_sibling (rel x)); [done|].
  apply lookup_insert_ne, Hl. by left.
Qed.

(** X14: a precompressed variant is never indexed under its own name:
    whatever the directory holds, a path that ends in [.br] or [.gz] is
    not in the index, so a request for it is not answered by this
    responder. *)
Theorem siblings_are_never_indexed listing pathname :
  is_sibling pathname = true → build_index listing !! pathname = None.
Proof.
  intros Hs. destruct (build_index listing !! pathname) as [file|] eqn:Hl; [|done].
  apply index_sound in Hl as [Hl|(f & _ & Hf & -> & _)].
  - by rewrite lookup_empty in Hl.
  - rewrite is_sibling_slash in Hs. congruence.
Qed.

(** X15: every other file is indexed.  When the walk reports each
    relative path once, a file that is not a precompressed variant is
    found under [/] followed by its relative path, with its own size,
    mtime, validator, type and sibling flags. *)
Theorem listed_file_is_indexed listing f :
  NoDup (rel <$> listing) →
  f ∈ listing →
  is_sibling (rel f) = false →
  build_index listing !! ("/" +:+ rel f) = Some (entry_of f).
Proof.
  unfold Static.build_index. generalize (∅ : gmap string FileEntry).
  induction listing as [|x l IH]; intros files Hnd Hin Hs; [by apply elem_of_nil in Hin|].
  rewrite fmap_cons in Hnd. apply list.NoDup_cons in Hnd as [Hx Hnd]. cbn [foldl].
  apply elem_of_cons in Hin as [->|Hin]; [|by apply IH].
  rewrite index_keeps.
  - rewrite index_file_spec, Hs. apply lookup_insert_eq.
  - intros f Hf Heq. change ("/" +:+ rel f) with (String "/"%char (rel f)) in Heq.
    change ("/" +:+ rel x) with (String "/"%char (rel x)) in Heq.
    injection Heq as Heq. apply Hx. rewrite <- Heq. by apply list_elem_of_fmap_2.
Qed.

(** X16: nothing else is indexed.  Every entry of the index stands for
    a file the walk reported that is not a precompressed variant: its key
    is [/] followed by the relative path, and its fields are those of
    that file. *)
Theorem indexed_entry_is_a_listed_file listing pathname file :
  build_index listing !! pathname = Some file →
  ∃ f, f ∈ listing ∧ is_sibling (rel f) = false ∧
       pathname = "/" +:+ rel f ∧ file = entry_of f.
Proof.
  intros [Hl|Hf]%index_sound; [by rewrite lookup_empty in Hl | done].
Qed.

End Index.

Lemma siblings_are_never_indexed_witness :
  Static.build_index (λ _, "text/plain") sample_opts
    [mkScanned "app.js" "/srv/app.js" 13 0 true false;
     mkScanned "app.js.br" "/srv/app.js.br" 9 0 false false] !! "/app.js.br" = None.
Proof. apply siblings_are_never_indexed. reflexivity. Defined.

Lemma listed_file_is_indexed_witness :
  Static.build_index (λ _, "text/plain") sample_opts sample_listing !! "/app.js"
    = Some (mkEntry "/srv/app.js" 13 1700000000000 (Some sample_etag) "text/plain" true true).
Proof.
  apply (listed_file_is_indexed (λ _, "text/plain") sample_opts sample_listing
           (mkScanned "app.js" "/srv/app.js" 13 1700000000000 true true)).
  - vm_compute. apply list.NoDup_cons. split.
    + intros H. apply list_elem_of_singleton in H. discriminate.
    + apply NoDup_singleton.
  - apply list_elem_of_further, list_elem_of_here.
  - reflexivity.
Defined.

Lemma indexed_entry_is_a_listed_file_witness :
  ∃ f, f ∈ sample_listing ∧ is_sibling (rel f) = false ∧
       "/data.txt" = "/" +:+ rel f ∧
       mkEntry "/srv/data.txt" 13 1700000000000 (Some sample_etag) "text/plain" false false
         = Static.entry_of (λ _, "text/plain") sample_opts f.
Proof.
  apply (indexed_entry_is_a_listed_file (λ _, "text/plain") sample_opts sample_listing "/data.txt").
  reflexivity.
Defined.


(** *** The answers of [handle] *)

Lemma match_here_digits s g1 g2 :
  match_here s = Some (g1, g2) → all_digits g1 = true ∧ all_digits g2 = true.
Proof.
  unfold match_here. destruct (strip_literal "bytes=" s) as [r|]; [|done].
  destruct (take_digits r) as [d1 r1] eqn:H1. apply take_digits_app in H1 as [_ Hd1].
  case_bool_decide; [done|]. destruct r1 as [|c r2]; [done|].
  destruct (decide (c = "-"%char)) as [->|Hc].
  - destruct (take_digits r2) as [d2 r3] eqn:H2. apply take_digits_app in H2 as [_ Hd2].
    by intros [= <- <-].
  - destruct c as [[] [] [] [] [] [] [] []]; done.
Qed.

Lemma range_match_digits s : ∀ g1 g2,
  range_match s = Some (g1, g2) → all_digits g1 = true ∧ all_digits g2 = true.
Proof.
  induction s as [|c s IH]; intros g1 g2; cbn [range_match].
  - destruct (match_here EmptyString) as [m|] eqn:Hm; [|done].
    intros [= ->]. by apply match_here_digits in Hm.
  - destruct (match_here (String c s)) as [m|] eqn:Hm; [|apply IH].
    intros [= ->]. by apply match_here_digits in Hm.
Qed.

Section Responder.

Variable base_path : string.
Variable toUTCString : Z → string.
Variable opts : Opts.

Local Abbreviation strip_base := (strip_base base_path).
Local Abbreviation base_headers := (base_headers toUTCString opts).
Local Abbreviation handle := (handle base_path toUTCString opts).

(** The three kinds of answer the range step gives. *)
Lemma respond_cases file request serve_path content_encoding hdrs :
  respond file request serve_path content_encoding hdrs
    = mkResponse 200 hdrs (BodyFile serve_path) ∨
  (truthy content_encoding = false ∧
   ∃ g1 g2, range_match (default EmptyString (req_headers request !! "range")) = Some (g1, g2) ∧
     ((parseInt g1 ≤ range_end file g2 < size file)%Z ∧
      respond file request serve_path content_encoding hdrs
        = mkResponse 206
            (<["content-length" := String_ (range_end file g2 - parseInt g1 + 1)]>
              (<["content-range" :=
                   "bytes " +:+ String_ (parseInt g1) +:+ "-" +:+ String_ (range_end file g2)
                   +:+ "/" +:+ String_ (size file)]> hdrs))
            (BodySlice serve_path (parseInt g1) (range_end file g2 + 1))
      ∨
      respond file request serve_path content_encoding hdrs
        = mkResponse 416 {["content-range" := "bytes */" +:+ String_ (size file)]} BodyNull)).
Proof.
  unfold respond.
  destruct (truthy (req_headers request !! "range")); [|by left].
  destruct (truthy content_encoding); [by left|]. cbn [negb andb].
  destruct (range_match _) as [[g1 g2]|]; [|by left].
  right. split; [done|]. exists g1, g2. split; [done|].
  destruct (_ || _ || _) eqn:Hc; [by right|].
  left. split; [|done].
  apply orb_false_iff in Hc as [[H1 H2]%orb_false_iff H3].
  apply Z.leb_gt in H1, H2. apply Z.ltb_ge in H3. lia.
Qed.

Lemma handle_cases files request file r :
  files !! strip_base (url_pathname request) = Some file →
  handle files request = Some r →
  (not_modified file request = true ∧
   r = mkResponse 304 (base_headers file (strip_base (url_pathname request))) BodyNull) ∨
  (not_modified file request = false ∧
   r = respond file request
         (negotiate file request (base_headers file (strip_base (url_pathname request)))).1.1
         (negotiate file request (base_headers file (strip_base (url_pathname request)))).1.2
         (negotiate file request (base_headers file (strip_base (url_pathname request)))).2).
Proof.
  intros Hf. destruct (not_modified file request) eqn:Hn.
  - unfold Static.handle. rewrite Hf, Hn. intros [= <-]. by left.
  - rewrite (handle_passed _ _ _ _ _ _ Hf Hn). intros [= <-]. by right.
Qed.

(** Negotiation touches three headers and no other. *)
Lemma negotiate_keeps file request hdrs name :
  name ≠ "content-encoding" → name ≠ "vary" → name ≠ "content-length" →
  (negotiate file request hdrs).2 !! name = hdrs !! name.
Proof.
  intros H1 H2 H3. unfold negotiate.
  destruct (has_br file && _); [|destruct (has_gz file && _); [|destruct (has_br file || _)]];
    cbn [snd]; by rewrite ?lookup_delete_ne, ?lookup_insert_ne by done.
Qed.

(** What negotiation selects and what it does to [Content-Length]. *)
Lemma negotiate_selected file request hdrs :
  ((negotiate file request hdrs).1.2 = None ∧
   (negotiate file request hdrs).1.1 = abs file ∧
   (negotiate file request hdrs).2 !! "content-length" = hdrs !! "content-length") ∨
  (truthy (negotiate file request hdrs).1.2 = true ∧
   (negotiate file request hdrs).2 !! "content-length" = None).
Proof.
  unfold negotiate.
  destruct (has_br file && _); [|destruct (has_gz file && _); [|destruct (has_br file || _)]];
    cbn [fst snd]; first [ right; split; [done | by rewrite lookup_delete_eq]
                         | left; by rewrite ?lookup_insert_ne by done ].
Qed.

(** The headers before [setHeaders] is called, as a callback that keeps
    a name sees them in the final base headers. *)
Lemma base_headers_keeps file pathname name :
  keeps (setHeaders opts) name →
  base_headers file pathname !! name =
    (match etag file with
     | Some e => if truthy (Some e) then <["etag" := e]> else id
     | None => id
     end
       (<["last-modified" := toUTCString (mtime file)]>
         (<["content-length" := String_ (size file)]>
           (<["content-type" := type file]> (∅ : Headers))))) !! name.
Proof.
  intros Hk. unfold Static.base_headers.
  destruct (setHeaders opts) as [f|] eqn:Hf.
  - rewrite (Hk f eq_refl). by destruct (etag file) as [e|]; [destruct (truthy (Some e))|].
  - by destruct (etag file) as [e|]; [destruct (truthy (Some e))|].
Qed.

(** X17: the answer of [handle] is [null] exactly for a path that is
    not in the index, and every response it gives has status 200, 206,
    304 or 416. *)
Theorem handle_misses_or_answers files request :
  (handle files request = None ↔ files !! strip_base (url_pathname request) = None) ∧
  ∀ r, handle files request = Some r →
       status r = 200 ∨ status r = 206 ∨ status r = 304 ∨ status r = 416.
Proof.
  split.
  - unfold Static.handle. destruct (files !! strip_base (url_pathname request)); [|done].
    destruct (not_modified _ _); [done|]. by destruct (negotiate _ _ _) as [[??]?].
  - intros r Hr. destruct (files !! strip_base (url_pathname request)) as [file|] eqn:Hf.
    + destruct (handle_cases _ _ _ _ Hf Hr) as [[_ ->]|[_ ->]]; [tauto|].
      destruct (respond_cases file request
                  (negotiate file request (base_headers file (strip_base (url_pathname request)))).1.1
                  (negotiate file request (base_headers file (strip_base (url_pathname request)))).1.2
                  (negotiate file request (base_headers file (strip_base (url_pathname request)))).2)
        as [-> | (_ & g1 & g2 & _ & [[_ ->] | ->])]; tauto.
    + unfold Static.handle in Hr. by rewrite Hf in Hr.
Qed.

(** The headers of an answer other than 416, under a name that neither
    negotiation nor range handling sets, are the base headers. *)
Lemma answer_keeps_base_header files request file r name :
  files !! strip_base (url_pathname request) = Some file →
  handle files request = Some r →
  status r ≠ 416 →
  name ≠ "content-encoding" → name ≠ "vary" → name ≠ "content-length" →
  name ≠ "content-range" →
  headers r !! name = base_headers file (strip_base (url_pathname request)) !! name.
Proof.
  intros Hf Hr H416 H1 H2 H3 H4.
  destruct (handle_cases _ _ _ _ Hf Hr) as [[_ ->]|[_ ->]]; [done|].
  destruct (respond_cases file request
              (negotiate file request (base_headers file (strip_base (url_pathname request)))).1.1
              (negotiate file request (base_headers file (strip_base (url_pathname request)))).1.2
              (negotiate file request (base_headers file (strip_base (url_pathname request)))).2)
    as [Hw | (_ & g1 & g2 & _ & [[_ Hw] | Hw])]; rewrite Hw in *; cbn [headers status] in *;
    [ | rewrite !lookup_insert_ne by done | done]; by apply negotiate_keeps.
Qed.

(** X20: [Content-Length] tells the length of the body.  When the
    file still has the size it was indexed with and the [setHeaders]
    callback leaves [Content-Length] alone, the [Content-Length] of an
    answer other than 304, if there is one, is the number of bytes of
    its body in decimal: the whole file at 200, the slice at 206. *)
Theorem content_length_is_body_length files request file r read v :
  files !! strip_base (url_pathname request) = Some file →
  keeps (setHeaders opts) "content-length" →
  Z.of_nat (length (read (abs file))) = size file →
  handle files request = Some r →
  status r ≠ 304 →
  headers r !! "content-length" = Some v →
  v = String_ (Z.of_nat (length (body_bytes read (body r)))).
Proof.
  intros Hf Hk Hlen Hr H304.
  destruct (handle_cases _ _ _ _ Hf Hr) as [[_ ->]|[_ ->]]; [done|].
  set (hdrs := base_headers file (strip_base (url_pathname request))).
  assert (Hbase : hdrs !! "content-length" = Some (String_ (size file))).
  { subst hdrs. rewrite base_headers_keeps by done.
    destruct (etag file) as [e|]; [destruct (truthy (Some e))|]; unfold id;
      by rewrite ?lookup_insert_ne, lookup_insert_eq by done. }
  destruct (negotiate_selected file request hdrs) as [(Hce & Hsp & Hcl)|(Hce & Hcl)].
  - destruct (respond_cases file request (negotiate file request hdrs).1.1
                (negotiate file request hdrs).1.2 (negotiate file request hdrs).2)
      as [-> | (_ & g1 & g2 & Hm & [[Hle ->] | ->])]; cbn [headers body].
    + rewrite Hcl, Hbase, Hsp. intros [= <-]. cbn [body_bytes]. by rewrite Hlen.
    + rewrite lookup_insert_eq, Hsp. intros [= <-]. cbn [body_bytes]. f_equal.
      apply range_match_digits in Hm as [Hg1 _]. pose proof (parseInt_nonneg g1 Hg1).
      rewrite blob_slice_inclusive by lia.
      rewrite length_take, length_drop. lia.
    + by rewrite lookup_singleton_ne.
  - rewrite respond_whole by by left. cbn [headers]. by rewrite Hcl.
Qed.

(** X21: a range asked of an encoded answer is not looked at.  When
    negotiation selects a precompressed sibling, the answer is the same
    with and without the [Range] header. *)
Theorem range_is_ignored_on_encoded_answer files request file :
  files !! strip_base (url_pathname request) = Some file →
  (has_br file && includes (default EmptyString (req_headers request !! "accept-encoding")) "br")
  || (has_gz file && includes (default EmptyString (req_headers request !! "accept-encoding")) "gzip")
    = true →
  handle files request =
    handle files (mkRequest (url_pathname request) (delete "range" (req_headers request))).
Proof.
  intros Hf Hsel.
  assert (Hnm : not_modified file
                  (mkRequest (url_pathname request) (delete "range" (req_headers request)))
                = not_modified file request).
  { unfold not_modified. cbn [req_headers]. by rewrite lookup_delete_ne. }
  assert (Hn : ∀ h, negotiate file
                      (mkRequest (url_pathname request) (delete "range" (req_headers request))) h
                    = negotiate file request h).
  { intros h. unfold negotiate. cbn [req_headers]. by rewrite lookup_delete_ne. }
  assert (Hce : ∀ h, truthy (negotiate file request h).1.2 = true).
  { intros h. unfold negotiate. apply orb_true_iff in Hsel as [-> | Hgz]; [done|].
    destruct (has_br file && _); [done|]. by rewrite Hgz. }
  unfold Static.handle. cbn [url_pathname]. rewrite Hf, Hnm.
  destruct (not_modified file request); [done|]. rewrite Hn.
  pose proof (Hce (base_headers file (strip_base (url_pathname request)))) as Hc.
  destruct (negotiate _ _ _) as [[sp ce] hdrs]. cbn [fst snd] in Hc.
  by rewrite !respond_whole by by left.
Qed.

(** X22: a suffix range is not a range for this responder.  A [Range]
    header [bytes=-<digits>] holds no match of the pattern, so a request
    that passes the conditional check is answered 200 with the whole
    body. *)
Theorem suffix_range_is_served_whole files request file n :
  files !! strip_base (url_pathname request) = Some file →
  not_modified file request = false →
  req_headers request !! "range" = Some ("bytes=-" +:+ n) →
  all_digits n = true →
  ∃ r, handle files request = Some r ∧ status r = 200 ∧
       ∃ path, body r = BodyFile path ∧ (path = abs file ∨ path = abs file +:+ ".br"
                                         ∨ path = abs file +:+ ".gz").
Proof.
  intros Hf Hn Hr Hd.
  assert (Hdig : ∀ s, all_digits s = true → range_match s = None).
  { induction s as [|c s IH]; [done|]. cbn [all_digits]. intros [Hc Hs]%andb_true_iff.
    cbn [range_match]. rewrite IH by done.
    assert (Hh : match_here (String c s) = None); [|by rewrite Hh].
    unfold match_here. cbn [strip_literal].
    case_bool_decide as Hb; [|done]. subst c. done. }
  assert (Hm : range_match ("bytes=-" +:+ n) = None).
  { change ("bytes=-" +:+ n)
      with (String "b" (String "y" (String "t" (String "e" (String "s" (String "="
              (String "-" n))))))).
    cbn [range_match].
    assert (H0 : match_here (String "b" (String "y" (String "t" (String "e" (String "s"
                   (String "=" (String "-" n))))))) = None) by reflexivity.
    rewrite H0.
    repeat match goal with
    | |- context [match_here (String ?c ?s)] =>
        assert (Hx : match_here (String c s) = None) by reflexivity; rewrite Hx; clear Hx
    end.
    by apply Hdig. }
  rewrite (handle_passed _ _ _ _ _ _ Hf Hn).
  rewrite respond_whole by (right; by rewrite Hr). eexists. split; [done|].
  split; [done|]. eexists. split; [done|]. unfold negotiate.
  destruct (has_br file && _); [tauto|]. destruct (has_gz file && _); [tauto|].
  destruct (has_br file || _); tauto.
Qed.

End Responder.

Section IndexedResponder.

Variable base_path : string.
Variable get_mime : string → string.
Variable toUTCString : Z → string.
Variable opts : Opts.

Local Abbreviation build_index := (build_index get_mime opts).
Local Abbreviation strip_base := (strip_base base_path).
Local Abbreviation base_headers := (base_headers toUTCString opts).
Local Abbreviation handle := (handle base_path toUTCString opts).

(** X18: for an indexed file the answer is 304 exactly when validators
    are enabled and [If-None-Match] is the validator of the file; with
    [etag: false], or with any other value of the header, it is not. *)
Theorem not_modified_only_on_exact_validator listing request file r :
  build_index listing !! strip_base (url_pathname request) = Some file →
  handle (build_index listing) request = Some r →
  (status r = 304 ↔
   use_etag opts = true ∧
   req_headers request !! "if-none-match" = Some (weak_validator (size file) (mtime file))).
Proof.
  intros Hf Hr.
  assert (Hnm : not_modified file request = true ↔
                use_etag opts = true ∧
                req_headers request !! "if-none-match"
                  = Some (weak_validator (size file) (mtime file))).
  { unfold not_modified. rewrite (indexed_etag_truthy _ _ _ _ _ Hf).
    rewrite (indexed_etag _ _ _ _ _ Hf). rewrite andb_true_iff, bool_decide_eq_true.
    destruct (use_etag opts); [tauto|]. split; [by intros [? _] | by intros [? _]]. }
  destruct (handle_cases _ _ _ _ _ _ _ Hf Hr) as [[Hn ->]|[Hn ->]].
  - cbn [status]. tauto.
  - split; [|intros H; apply Hnm in H; congruence].
    destruct (respond_cases file request
                (negotiate file request (base_headers file (strip_base (url_pathname request)))).1.1
                (negotiate file request (base_headers file (strip_base (url_pathname request)))).1.2
                (negotiate file request (base_headers file (strip_base (url_pathname request)))).2)
      as [-> | (_ & g1 & g2 & _ & [[_ ->] | ->])]; done.
Qed.

(** X19: the validator handed out is the validator honoured.  With
    validators enabled and a [setHeaders] callback that leaves [ETag]
    alone, every answer other than 416 for an indexed file carries an
    [ETag], and a later request for the same path that sends this value
    back in [If-None-Match] is answered 304. *)
Theorem etag_sent_back_gets_304 listing request file r request' :
  build_index listing !! strip_base (url_pathname request) = Some file →
  use_etag opts = true →
  keeps (setHeaders opts) "etag" →
  handle (build_index listing) request = Some r →
  status r ≠ 416 →
  url_pathname request' = url_pathname request →
  req_headers request' !! "if-none-match" = headers r !! "etag" →
  is_Some (headers r !! "etag") ∧
  status <$> handle (build_index listing) request' = Some 304.
Proof.
  intros Hf Hu Hk Hr H416 Hp Hi.
  assert (He : headers r !! "etag" = etag file).
  { rewrite (answer_keeps_base_header _ _ _ _ _ _ _ "etag" Hf Hr) by done.
    rewrite base_headers_keeps by done.
    pose proof (indexed_etag_truthy _ _ _ _ _ Hf) as Ht.
    destruct (etag file) as [e|]; [|by rewrite Hu in Ht].
    rewrite Ht, Hu. by rewrite lookup_insert_eq. }
  pose proof (indexed_etag _ _ _ _ _ Hf) as Hv. rewrite Hu in Hv.
  split; [rewrite He, Hv; eauto|].
  unfold Static.handle. rewrite Hp, Hf. unfold not_modified.
  rewrite (indexed_etag_truthy _ _ _ _ _ Hf), Hu, Hi, He.
  by rewrite bool_decide_eq_true_2.
Qed.

End IndexedResponder.

Lemma not_modified_only_on_exact_validator_witness :
  304 = 304 ↔
  use_etag sample_opts = true ∧
  ({["if-none-match" := sample_etag]} : gmap string string) !! "if-none-match"
    = Some (weak_validator 13 1700000000000).
Proof.
  refine (not_modified_only_on_exact_validator EmptyString (λ _, "text/plain") sample_date
            sample_opts sample_listing
            (mkRequest "/data.txt" {["if-none-match" := sample_etag]}) data_txt_entry
            (mkResponse 304 (base_headers sample_date sample_opts data_txt_entry "/data.txt")
                        BodyNull) _ _);
    vm_compute; reflexivity.
Defined.

Lemma etag_sent_back_gets_304_witness :
  is_Some (base_headers sample_date sample_opts data_txt_entry "/data.txt" !! "etag") ∧
  status <$> sample_handle (mkRequest "/data.txt" {["if-none-match" := sample_etag]}) = Some 304.
Proof.
  apply (etag_sent_back_gets_304 EmptyString (λ _, "text/plain") sample_date
           sample_opts sample_listing
           (mkRequest "/data.txt" ∅) data_txt_entry
           (mkResponse 200 (base_headers sample_date sample_opts data_txt_entry "/data.txt")
                       (BodyFile "/srv/data.txt"))
           (mkRequest "/data.txt" {["if-none-match" := sample_etag]}));
    try (vm_compute; reflexivity).
  - intros f Hf. discriminate.
  - discriminate.
Defined.

Lemma content_length_is_body_length_witness :
  "5" = String_ (Z.of_nat (length (body_bytes sample_disk (BodySlice "/srv/data.txt" 0 5)))).
Proof.
  apply (content_length_is_body_length EmptyString sample_date sample_opts sample_index
           (mkRequest "/data.txt" {["range" := "bytes=0-4"]}) data_txt_entry
           (mkResponse 206
              (<["content-length" := "5"]>
                (<["content-range" := "bytes 0-4/13"]>
                  (base_headers sample_date sample_opts data_txt_entry "/data.txt")))
              (BodySlice "/srv/data.txt" 0 5))
           sample_disk "5");
    try (vm_compute; reflexivity).
  - intros f Hf. discriminate.
  - discriminate.
Defined.

Lemma range_is_ignored_on_encoded_answer_witness :
  sample_handle (mkRequest "/app.js"
                   (<["range" := "bytes=0-4"]> {["accept-encoding" := "gzip, br"]}))
  = sample_handle (mkRequest "/app.js"
                     (delete "range" (<["range" := "bytes=0-4"]> {["accept-encoding" := "gzip, br"]}))).
Proof.
  refine (range_is_ignored_on_encoded_answer EmptyString sample_date sample_opts sample_index
            (mkRequest "/app.js" (<["range" := "bytes=0-4"]> {["accept-encoding" := "gzip, br"]}))
            app_js_entry _ _);
    vm_compute; reflexivity.
Defined.

Lemma suffix_range_is_served_whole_witness :
  ∃ r, sample_handle (mkRequest "/data.txt" {["range" := "bytes=-5"]}) = Some r ∧
       status r = 200 ∧
       ∃ path, body r = BodyFile path ∧
               (path = "/srv/data.txt" ∨ path = "/srv/data.txt.br" ∨ path = "/srv/data.txt.gz").
Proof.
  apply (suffix_range_is_served_whole EmptyString sample_date sample_opts sample_index
           (mkRequest "/data.txt" {["range" := "bytes=-5"]}) data_txt_entry "5");
    vm_compute; reflexivity.
Defined.

(** X23: the base path is stripped from the front of the request path.
    A request for the base path followed by a non-empty rest is answered
    as a request for that rest by a responder without base path, and a
    request for the base path alone as a request for [/]. *)
Theorem base_path_is_stripped base_path toUTCString opts files rest hdrs :
  base_path ≠ EmptyString →
  rest ≠ EmptyString →
  handle base_path toUTCString opts files (mkRequest (base_path +:+ rest) hdrs)
    = handle EmptyString toUTCString opts files (mkRequest rest hdrs) ∧
  handle base_path toUTCString opts files (mkRequest base_path hdrs)
    = handle EmptyString toUTCString opts files (mkRequest "/" hdrs).
Proof.
  intros Hb Hr.
  assert (H1 : strip_base base_path (base_path +:+ rest) = rest).
  { unfold strip_base. rewrite bool_decide_eq_false_2 by done. rewrite prefix_app.
    cbn [negb andb]. rewrite slice_from_app. by rewrite bool_decide_eq_false_2. }
  assert (H2 : strip_base base_path base_path = "/").
  { unfold strip_base. rewrite bool_decide_eq_false_2 by done.
    pose proof (prefix_app base_path EmptyString) as Hp.
    pose proof (slice_from_app base_path EmptyString) as Hs.
    rewrite append_empty_r in Hp, Hs. rewrite Hp, Hs. done. }
  assert (H0 : ∀ p, strip_base EmptyString p = p) by done.
  unfold handle. cbn [url_pathname]. rewrite H1, H2, !H0.
  unfold not_modified, negotiate, respond. cbn [req_headers]. done.
Qed.

Lemma base_path_is_stripped_witness :
  handle "/docs" sample_date sample_opts sample_index (mkRequest "/docs/data.txt" ∅)
    = sample_handle (mkRequest "/data.txt" ∅).
Proof.
  apply (base_path_is_stripped "/docs" sample_date sample_opts sample_index "/data.txt" ∅);
    discriminate.
Defined.

(** X24: the responder of the client directory marks immutable assets.
    With the options [createHandler] gives it, every answer other than
    416 carries [Cache-Control: public,max-age=31536000,immutable] when
    the path (base path stripped) starts with [/_app/immutable/], and no
    [Cache-Control] otherwise. *)
Theorem immutable_assets_are_marked base_path toUTCString files request file r :
  files !! strip_base base_path (url_pathname request) = Some file →
  handle base_path toUTCString client_opts files request = Some r →
  status r ≠ 416 →
  headers r !! "cache-control" =
    if String.prefix "/_app/immutable/" (strip_base base_path (url_pathname request))
    then Some "public,max-age=31536000,immutable" else None.
Proof.
  intros Hf Hr H416.
  rewrite (answer_keeps_base_header _ _ _ _ _ _ _ "cache-control" Hf Hr) by done.
  unfold base_headers. cbn [setHeaders client_opts]. unfold immutable_headers.
  destruct (String.prefix _ _); [by rewrite lookup_insert_eq|].
  destruct (etag file) as [e|]; [destruct (truthy (Some e))|];
    by rewrite ?lookup_insert_ne, lookup_empty by done.
Qed.

Lemma immutable_assets_are_marked_witness :
  (<["cache-control" := "public,max-age=31536000,immutable"]>
     (base_headers sample_date sample_opts
        (mkEntry "/srv/_app/immutable/a.js" 3 7 (Some (weak_validator 3 7)) "text/plain" false false)
        "/_app/immutable/a.js")) !! "cache-control"
  = Some "public,max-age=31536000,immutable".
Proof.
  refine (immutable_assets_are_marked EmptyString sample_date
           (build_index (λ _, "text/plain") client_opts
              [mkScanned "_app/immutable/a.js" "/srv/_app/immutable/a.js" 3 7 false false])
           (mkRequest "/_app/immutable/a.js" ∅)
           (mkEntry "/srv/_app/immutable/a.js" 3 7 (Some (weak_validator 3 7)) "text/plain" false false)
           (mkResponse 200
              (<["cache-control" := "public,max-age=31536000,immutable"]>
                 (base_headers sample_date sample_opts
                    (mkEntry "/srv/_app/immutable/a.js" 3 7 (Some (weak_validator 3 7))
                             "text/plain" false false)
                    "/_app/immutable/a.js"))
              (BodyFile "/srv/_app/immutable/a.js")) _ _ _);
    try (vm_compute; reflexivity).
  discriminate.
Defined.

End StaticMore.

(* ===================================================================== *)
(** * Origin, redirects and client address                                *)
(* ===================================================================== *)

Module ServerFacts.
Import Static StaticFacts StaticMore Server.

(** *** Strings *)

Lemma length_app a : ∀ b, String.length (a +:+ b) = String.length a + String.length b.
Proof. induction a as [|c a IH]; intros b; [done|]. simpl. by rewrite IH. Qed.

Lemma app_assoc_string a : ∀ b c, (a +:+ b) +:+ c = a +:+ b +:+ c.
Proof.
  induction a as [|x a IH]; intros b c; [done|].
  change ((String x a +:+ b) +:+ c) with (String x ((a +:+ b) +:+ c)). by rewrite IH.
Qed.

Lemma endsWith_app s p : endsWith (s +:+ p) p = true.
Proof.
  unfold endsWith. rewrite length_app.
  rewrite (proj2 (Nat.leb_le _ _)) by lia.
  replace (String.length s + String.length p - String.length p) with (String.length s) by lia.
  rewrite slice_from_app. by rewrite bool_decide_eq_true_2.
Qed.

Lemma slice_from_split n : ∀ s, ∃ pre, s = pre +:+ slice_from n s.
Proof.
  induction n as [|n IH]; intros s; [by exists EmptyString|].
  destruct s as [|c s]; [by exists EmptyString|].
  destruct (IH s) as [pre Hpre]. exists (String c pre). cbn [slice_from].
  change (String c pre +:+ slice_from n s) with (String c (pre +:+ slice_from n s)).
  by rewrite <- Hpre.
Qed.

Lemma endsWith_inv s p : endsWith s p = true → ∃ pre, s = pre +:+ p.
Proof.
  unfold endsWith. intros [_ Hs%bool_decide_eq_true]%andb_true_iff.
  destruct (slice_from_split (String.length s - String.length p) s) as [pre Hpre].
  exists pre. by rewrite Hs in Hpre.
Qed.

Lemma drop_last_app s c : drop_last (s +:+ String c EmptyString) = s.
Proof.
  induction s as [|a s IH]; [done|].
  change (String a s +:+ String c EmptyString) with (String a (s +:+ String c EmptyString)).
  cbn [drop_last]. rewrite IH. by destruct s.
Qed.

(** Toggling the trailing slash twice gives the path back, unless it
    ends in two slashes. *)
Lemma toggle_slash_twice path :
  endsWith path "//" = false → toggle_slash (toggle_slash path) = path.
Proof.
  intros H2. unfold toggle_slash at 2. destruct (endsWith path "/") eqn:H1.
  - apply endsWith_inv in H1 as [pre ->]. rewrite (drop_last_app pre "/").
    unfold toggle_slash. destruct (endsWith pre "/") eqn:H3; [|done].
    apply endsWith_inv in H3 as [pre' ->].
    rewrite app_assoc_string in H2. change ("/" +:+ "/") with "//" in H2.
    by rewrite endsWith_app in H2.
  - unfold toggle_slash. rewrite endsWith_app. apply (drop_last_app path "/").
Qed.

Lemma strip_base_app base_path rest :
  rest ≠ EmptyString → strip_base base_path (base_path +:+ rest) = rest.
Proof.
  intros Hr. unfold strip_base. case_bool_decide as Hb; [by subst|].
  rewrite prefix_app. cbn [negb andb]. rewrite slice_from_app.
  by rewrite bool_decide_eq_false_2.
Qed.

Lemma before_colon_app protocol : ∀ rest,
  includes protocol ":" = false → before_colon (protocol +:+ String ":" rest) = protocol.
Proof.
  induction protocol as [|c p IH]; intros rest.
  - intros _. done.
  - cbn [includes String.prefix]. intros [Hc Hp]%orb_false_iff.
    change (String c p +:+ String ":" rest) with (String c (p +:+ String ":" rest)).
    cbn [before_colon]. rewrite IH by done.
    destruct (ascii_dec ":" c) as [<-|Hne].
    + by destruct p.
    + by rewrite bool_decide_eq_false_2.
Qed.

(** *** The claims of this part *)

(** X25: the origin [get_origin] returns is built from a protocol
    without colon.  Whenever it returns an origin, the decoded protocol
    header (or [https]) holds no colon and is the scheme of the origin:
    the origin is this protocol, [://], a non-empty host and, if a port
    header is used, [:] and a port that is a number; so a protocol header
    cannot smuggle in a host. *)
Theorem origin_scheme_is_the_protocol
    protocol_header host_header port_header decodeURIComponent is_NaN headers origin :
  get_origin protocol_header host_header port_header decodeURIComponent is_NaN headers
    = inr origin →
  ∃ protocol host,
    decodeURIComponent (default "https" (and_get protocol_header headers)) = Some protocol ∧
    includes protocol ":" = false ∧
    host ≠ EmptyString ∧
    before_colon origin = protocol ∧
    (origin = protocol +:+ "://" +:+ host ∨
     ∃ port, port ≠ EmptyString ∧ is_NaN port = false ∧
             origin = protocol +:+ "://" +:+ host +:+ ":" +:+ port).
Proof.
  unfold get_origin.
  destruct (decodeURIComponent _) as [protocol|]; [|done].
  destruct (includes protocol ":") eqn:Hc; [done|].
  set (host := match and_get host_header headers with Some h => Some h | None => headers !! "host" end).
  destruct host as [h|]; [|done]. cbn [truthy negb default from_option id].
  case_bool_decide as Hh; [done|]. cbn [negb].
  assert (Hport : ∀ p, and_get port_header headers = Some p → p ≠ EmptyString).
  { unfold and_get. destruct (truthy port_header); [|done].
    destruct (headers !! default EmptyString port_header) as [v|] eqn:Hv; [|done].
    cbn [truthy]. case_bool_decide; [done|]. by intros p [= <-]. }
  destruct (and_get port_header headers) as [port|] eqn:Hp.
  - pose proof (Hport port eq_refl) as Hne. cbn [truthy default from_option id].
    rewrite bool_decide_eq_false_2 by done. cbn [negb andb].
    destruct (is_NaN port) eqn:Hn; [done|]. intros [= <-].
    exists protocol, h. split_and!; [done | done | done | | right; eauto].
    change ("://" +:+ h +:+ ":" +:+ port) with (String ":" ("//" +:+ h +:+ ":" +:+ port)).
    by apply before_colon_app.
  - cbn [truthy andb]. intros [= <-].
    exists protocol, h. split_and!; [done | done | done | | by left].
    change ("://" +:+ h) with (String ":" ("//" +:+ h)). by apply before_colon_app.
Qed.

Lemma origin_scheme_is_the_protocol_witness :
  ∃ protocol host,
    Some (default "https" (and_get (Some "x-forwarded-proto") honest_headers)) = Some protocol ∧
    includes protocol ":" = false ∧
    host ≠ EmptyString ∧
    before_colon "http://shop.example" = protocol ∧
    ("http://shop.example" = protocol +:+ "://" +:+ host ∨
     ∃ port, port ≠ EmptyString ∧ false = false ∧
             "http://shop.example" = protocol +:+ "://" +:+ host +:+ ":" +:+ port).
Proof.
  refine (origin_scheme_is_the_protocol (Some "x-forwarded-proto") None None Some (λ _, false)
            honest_headers "http://shop.example" _).
  vm_compute. reflexivity.
Defined.

(** X26: a redirect does not bounce.  When a request is answered 308,
    the location is the base path, the path with its trailing slash
    toggled, and the query; and if the path itself is not prerendered,
    does not end in two slashes and its toggled form is not empty, the
    request for that location is not answered by another redirect. *)
Theorem redirect_does_not_bounce
    base_path serve_client serve_prerendered prerendered request search location request' search' :
  route base_path serve_client serve_prerendered prerendered request search
    = Redirect308 location →
  strip_base base_path (url_pathname request) ∉ prerendered →
  endsWith (strip_base base_path (url_pathname request)) "//" = false →
  toggle_slash (strip_base base_path (url_pathname request)) ≠ EmptyString →
  url_pathname request' = base_path +:+ toggle_slash (strip_base base_path (url_pathname request)) →
  location = base_path +:+ toggle_slash (strip_base base_path (url_pathname request)) +:+ search ∧
  ∀ location',
    route base_path serve_client serve_prerendered prerendered request' search'
      ≠ Redirect308 location'.
Proof.
  intros Hroute Hpath Hss Hne Hreq. split.
  - unfold route in Hroute. destruct (serve_client request); [done|].
    destruct (if bool_decide _ then _ else _); [done|].
    case_bool_decide; [|done]. injection Hroute as <-.
    cbn [truthy]. case_bool_decide as Hb; case_bool_decide as Hs; subst; cbn [negb];
      by rewrite ?app_assoc_string, ?append_empty_r.
  - intros location'. unfold route. destruct (serve_client request'); [done|].
    rewrite Hreq, strip_base_app by done.
    destruct (if bool_decide _ then _ else _); [done|].
    rewrite toggle_slash_twice by done. by rewrite bool_decide_eq_false_2.
Qed.

Lemma redirect_does_not_bounce_witness :
  "/about" +:+ "?x=1" = EmptyString +:+ toggle_slash "/about/" +:+ "?x=1" ∧
  ∀ location',
    route EmptyString (λ _, None) (λ _, None) {["/about"]} (mkRequest "/about" ∅) "?x=1"
      ≠ Redirect308 location'.
Proof.
  refine (redirect_does_not_bounce EmptyString (λ _, None) (λ _, None) {["/about"]}
            (mkRequest "/about/" ∅) "?x=1" ("/about" +:+ "?x=1") (mkRequest "/about" ∅) "?x=1"
            _ _ _ _ _); try (vm_compute; reflexivity).
  - intros H. apply elem_of_singleton in H. vm_compute in H. discriminate.
  - vm_compute. discriminate.
Defined.

Lemma split_comma_cons s : ∃ first others, split_comma s = first :: others.
Proof.
  induction s as [|c s (first & others & IH)]; cbn [split_comma]; [eauto|].
  case_bool_decide; [eauto|]. rewrite IH. eauto.
Qed.

(** X27: the depth of [X-Forwarded-For] counts from the right.  With
    the address header [x-forwarded-for] and a depth [d >= 1], the
    client address is the [d]-th of the comma-separated, trimmed
    addresses counted from the last one, or the first one when there are
    fewer than [d], provided that address is not empty. *)
Theorem xff_depth_counts_from_the_right requestIP headers value d address :
  headers !! "x-forwarded-for" = Some value →
  value ≠ EmptyString →
  (1 ≤ d)%Z →
  reverse (trim <$> split_comma value)
    !! Z.to_nat (Z.min (d - 1) (Z.of_nat (length (trim <$> split_comma value)) - 1))
    = Some address →
  address ≠ EmptyString →
  getClientAddress (Some "x-forwarded-for") (Some d) requestIP headers = address.
Proof.
  intros Hv Hne Hd Hrev Ha. unfold getClientAddress, and_get.
  cbn [truthy default from_option id negb]. rewrite Hv. cbn [truthy].
  rewrite (bool_decide_eq_false_2 (value = EmptyString)) by done. cbn [negb].
  rewrite (proj2 (Z.ltb_lt 0 d)) by lia.
  rewrite (bool_decide_eq_false_2 ("x-forwarded-for" = EmptyString)) by done.
  rewrite (bool_decide_eq_true_2 (Some "x-forwarded-for" = Some "x-forwarded-for")) by done.
  cbn [negb andb].
  set (addresses := trim <$> split_comma value) in *.
  assert (Hlen : 0 < length addresses).
  { subst addresses. rewrite length_fmap.
    destruct (split_comma_cons value) as (first & others & ->). simpl. lia. }
  apply reverse_lookup_Some in Hrev as [Hrev _].
  replace (Z.to_nat (Z.max 0 (Z.of_nat (length addresses) - d)))
    with (length addresses - S (Z.to_nat (Z.min (d - 1) (Z.of_nat (length addresses) - 1))))
    by lia.
  rewrite Hrev. cbn [truthy default from_option id].
  by rewrite bool_decide_eq_false_2.
Qed.

Lemma xff_depth_counts_from_the_right_witness :
  getClientAddress (Some "x-forwarded-for") (Some 2%Z) None
    {["x-forwarded-for" := "1.1.1.1, 2.2.2.2 ,3.3.3.3"]} = "2.2.2.2".
Proof.
  apply (xff_depth_counts_from_the_right None
           {["x-forwarded-for" := "1.1.1.1, 2.2.2.2 ,3.3.3.3"]}
           "1.1.1.1, 2.2.2.2 ,3.3.3.3" 2 "2.2.2.2");
    try (vm_compute; reflexivity); try discriminate.
Defined.

(** X28: the client address is never the empty string, whatever the
    headers, the configuration and the answer of [requestIP]. *)
Theorem client_address_is_never_empty address_header xff_depth requestIP headers :
  getClientAddress address_header xff_depth requestIP headers ≠ EmptyString.
Proof.
  unfold getClientAddress.
  assert (Hval : ∀ v, and_get address_header headers = Some v → v ≠ EmptyString).
  { unfold and_get. destruct (truthy address_header); [|done].
    destruct (headers !! default EmptyString address_header) as [v|]; [|done].
    cbn [truthy]. case_bool_decide; [done|]. by intros ? [= <-]. }
  destruct (and_get address_header headers) as [value|] eqn:Hv.
  - pose proof (Hval value eq_refl) as Hne.
    destruct (_ && _); [|done].
    destruct (_ !! _) as [a|]; cbn [truthy default from_option id]; [|done].
    by case_bool_decide.
  - destruct requestIP as [ip|]; cbn [truthy default from_option id]; [|done].
    by case_bool_decide.
Qed.

(** *** The body size limit *)

Lemma to_upper_digit c : is_digit c = true → to_upper c = c.
Proof. destruct c as [[] [] [] [] [] [] [] []]; by vm_compute. Qed.

Lemma to_upper_space c : is_space c = true → to_upper c = c.
Proof. destruct c as [[] [] [] [] [] [] [] []]; by vm_compute. Qed.

Lemma is_digit_to_upper c : is_digit (to_upper c) = is_digit c.
Proof. by destruct c as [[] [] [] [] [] [] [] []]. Qed.

Lemma space_is_no_digit c : is_space c = true → is_digit c = false.
Proof. destruct c as [[] [] [] [] [] [] [] []]; by vm_compute. Qed.

Lemma toUpperCase_app a b : toUpperCase (a +:+ b) = toUpperCase a +:+ toUpperCase b.
Proof.
  induction a as [|c a IH]; [done|].
  change (String c a +:+ b) with (String c (a +:+ b)).
  cbn [toUpperCase]. by rewrite IH.
Qed.

Lemma toUpperCase_digits n : all_digits n = true → toUpperCase n = n.
Proof.
  induction n as [|c n IH]; cbn [all_digits toUpperCase]; [done|].
  intros [Hc Hn]%andb_true_iff. by rewrite to_upper_digit, IH.
Qed.

Lemma toUpperCase_white ws : all_white ws = true → toUpperCase ws = ws.
Proof.
  induction ws as [|c ws IH]; cbn [all_white toUpperCase]; [done|].
  intros [Hc Hn]%andb_true_iff. by rewrite to_upper_space, IH.
Qed.

Lemma skip_white_run ws : ∀ t,
  all_white ws = true →
  match t with String c _ => is_space c = false | EmptyString => True end →
  skip_white (ws +:+ t) = t.
Proof.
  induction ws as [|c ws IH]; intros t Hws Ht.
  - change (EmptyString +:+ t) with t.
    destruct t as [|c t]; [done|]. cbn [skip_white]. by rewrite Ht.
  - change (String c ws +:+ t) with (String c (ws +:+ t)).
    cbn [skip_white all_white] in *.
    apply andb_true_iff in Hws as [Hc Hws]. by rewrite Hc, IH.
Qed.

(** What the pattern makes of digits, white space and a tail that starts
    with none of a digit, a dot or a white space: the tail alone decides. *)
Lemma parse_shape input n ws t :
  toUpperCase input = n +:+ ws +:+ t →
  all_digits n = true → n ≠ EmptyString → all_white ws = true →
  match t with
  | String c _ => is_digit c = false ∧ is_space c = false ∧ c ≠ "."%char
  | EmptyString => True
  end →
  parse_body_size_limit (Some input) =
  match unit_suffix t with Some times => Some (Bytes n times) | None => None end.
Proof.
  intros Hin Hn Hne Hws Ht. unfold parse_body_size_limit. rewrite Hin.
  assert (Hhead : match ws +:+ t with
                  | String c _ => is_digit c = false ∧ c ≠ "."%char
                  | EmptyString => True
                  end).
  { destruct ws as [|c ws].
    - change (EmptyString +:+ t) with t. destruct t; [done|tauto].
    - change (String c ws +:+ t) with (String c (ws +:+ t)).
      cbn [all_white] in Hws. apply andb_true_iff in Hws as [Hc _].
      split; [by apply space_is_no_digit|]. by intros ->. }
  rewrite (take_digits_run n (ws +:+ t) Hn)
    by (destruct (ws +:+ t); [done|tauto]).
  rewrite bool_decide_eq_false_2 by done.
  assert (strip_literal "." (ws +:+ t) = None) as ->.
  { destruct (ws +:+ t) as [|c r]; [done|]. cbn [strip_literal].
    rewrite bool_decide_eq_false_2; [done|]. intros <-. by destruct Hhead. }
  rewrite (skip_white_run ws t Hws); [done|].
  destruct t; [done|tauto].
Qed.

(** X29: the spelling of a body size limit.  Digits, any amount of white
    space, a unit letter in either case or none, and an optional [B] in
    either case: the limit is the number written by the digits, multiplied
    by 1024 once for [K], twice for [M], three times for [G] and not at
    all without a unit. *)
Theorem body_size_limit_units n ws u b times :
  all_digits n = true → n ≠ EmptyString → all_white ws = true →
  (u, times) ∈ [(EmptyString, 0); ("K", 1); ("k", 1); ("M", 2); ("m", 2);
                ("G", 3); ("g", 3)] →
  b ∈ [EmptyString; "B"; "b"] →
  parse_body_size_limit (Some (n +:+ ws +:+ u +:+ b)) = Some (Bytes n times).
Proof.
  intros Hn Hne Hws Hu Hb.
  assert (Hin : toUpperCase (n +:+ ws +:+ u +:+ b)
                = n +:+ ws +:+ toUpperCase (u +:+ b)).
  { by rewrite !toUpperCase_app, toUpperCase_digits, toUpperCase_white,
      <- toUpperCase_app. }
  repeat (apply elem_of_cons in Hu as [[= -> ->]|Hu]);
    [..|by apply elem_of_nil in Hu];
    (repeat (apply elem_of_cons in Hb as [->|Hb]);
       [..|by apply elem_of_nil in Hb]);
    (rewrite (parse_shape _ n ws _ Hin Hn Hne Hws); [reflexivity|];
     vm_compute; try done; repeat split; congruence).
Qed.

Lemma body_size_limit_units_witness :
  parse_body_size_limit (Some "512 kb") = Some (Bytes "512" 1).
Proof.
  apply (body_size_limit_units "512" " " "k" "b" 1);
    try (vm_compute; reflexivity); try discriminate.
  - apply elem_of_cons; right. apply elem_of_cons; right.
    apply elem_of_cons; by left.
  - apply elem_of_cons; right. apply elem_of_cons; right.
    apply elem_of_cons; by left.
Defined.

(** X30: a body size limit that does not start with a digit is refused.
    The empty string, a sign, a leading dot or leading white space all
    make [parse_body_size_limit] throw. *)
Theorem body_size_limit_must_start_with_a_digit input :
  match input with String c _ => is_digit c = false | EmptyString => True end →
  parse_body_size_limit (Some input) = None.
Proof.
  intros Hhead. unfold parse_body_size_limit.
  destruct input as [|c input]; [done|].
  cbn [toUpperCase take_digits]. by rewrite is_digit_to_upper, Hhead.
Qed.

Lemma body_size_limit_must_start_with_a_digit_witness :
  parse_body_size_limit (Some "-1") = None.
Proof.
  apply (body_size_limit_must_start_with_a_digit "-1"). reflexivity.
Defined.

End ServerFacts.
